(** * diii: the device link (viii.py) and its transport bridge (websocketserial.py)

    A shallow embedding of [Deviceviii] and [WebSocketSerialThreaded] and of
    the Python built-ins they call, followed by the properties of the link:
    upload framing, tokenizing of received lines, event dispatch, the
    background pump and the bridge's read and write. *)

From Stdlib Require Import NArith.
From Stdlib.Strings Require Import Byte Ascii String.
From stdpp Require Import base option list gmap.

Local Open Scope N_scope.

(** ** Python values

    A [str] is a sequence of Unicode code points, a [bytes] a sequence of
    octets. *)

Abbreviation str := (list N).
Abbreviation bytes := (list byte).

(** Literals: [u "abc"] is the str 'abc', [b8 "abc"] the bytes b'abc'. *)
Definition u (s : string) : str := N_of_ascii <$> list_ascii_of_string s.
Definition b8 (s : string) : bytes := list_byte_of_string s.

Definition CR : N := 13.
Definition LF : N := 10.

Module Py.

(** [len(x) > 0], the truth value of a str, bytes or list. *)
Definition truthy {A} (x : list A) : bool :=
  match x with [] => false | _ :: _ => true end.

(** [any(t)] for a tuple of strings. *)
Definition any (t : list str) : bool := existsb truthy t.

Fixpoint startswith (s pre : str) : bool :=
  match pre, s with
  | [], _ => true
  | _ :: _, [] => false
  | p :: pre', c :: s' => (c =? p) && startswith s' pre'
  end.

(** [sub in s]. *)
Fixpoint contains (sub s : str) : bool :=
  startswith s sub ||
  match s with
  | [] => false
  | _ :: s' => contains sub s'
  end.

(** [s.partition(sep)] for a non-empty [sep]: the text before the first
    occurrence of [sep], [sep] itself and the text after it; when [sep]
    does not occur, [(s, '', '')]. *)
Fixpoint partition (sep s : str) : str * str * str :=
  match s with
  | [] => ([], [], [])
  | c :: s' =>
      if startswith s sep then ([], sep, drop (length sep) s)
      else let '(hd, mid, tl) := partition sep s' in (c :: hd, mid, tl)
  end.

(** [s.split(sep)] for a non-empty [sep]: cut at every occurrence of [sep],
    scanning from the left. Each cut removes at least one character, so
    [length s] rounds are enough. *)
Fixpoint split_rounds (n : nat) (sep s : str) : list str :=
  match n with
  | O => [s]
  | S n' =>
      match partition sep s with
      | (hd, [], _) => [hd]
      | (hd, _ :: _, tl) => hd :: split_rounds n' sep tl
      end
  end.

Definition split (sep s : str) : list str := split_rounds (length s) sep s.

(** Strip from the right every character satisfying [p]. *)
Fixpoint rstrip_by (p : N -> bool) (s : str) : str :=
  match s with
  | [] => []
  | c :: s' =>
      match rstrip_by p s' with
      | [] => if p c then [] else [c]
      | r => c :: r
      end
  end.

(** [str.isspace] on one code point (CPython's [_PyUnicode_IsWhitespace]). *)
Definition isspace (c : N) : bool :=
  ((0x09 <=? c) && (c <=? 0x0D)) || ((0x1C <=? c) && (c <=? 0x20)) ||
  (c =? 0x85) || (c =? 0xA0) || (c =? 0x1680) ||
  ((0x2000 <=? c) && (c <=? 0x200A)) ||
  (c =? 0x2028) || (c =? 0x2029) || (c =? 0x202F) || (c =? 0x205F) ||
  (c =? 0x3000).

(** [s.rstrip()] and [s.rstrip(chars)]. *)
Definition rstrip (s : str) : str := rstrip_by isspace s.
Definition rstrip_chars (chars s : str) : str :=
  rstrip_by (fun c => existsb (N.eqb c) chars) s.

(** [s.strip()]: whitespace removed at both ends. *)
Fixpoint lstrip_by (p : N -> bool) (s : str) : str :=
  match s with
  | [] => []
  | c :: s' => if p c then lstrip_by p s' else s
  end.
Definition strip (s : str) : str := rstrip (lstrip_by isspace s).

(** [sep.join(parts)]. *)
Fixpoint join (sep : str) (parts : list str) : str :=
  match parts with
  | [] => []
  | [x] => x
  | x :: parts' => x ++ sep ++ join sep parts'
  end.

(** [f.readlines()] on the text of a file (as the text layer delivers it,
    newlines already translated to '\n'): the lines, each keeping its
    '\n'; the last line has none when the text does not end in one. *)
Fixpoint readlines (text : str) : list str :=
  match text with
  | [] => []
  | c :: text' =>
      if c =? LF then [c] :: readlines text'
      else match readlines text' with
           | [] => [[c]]
           | l :: ls => (c :: l) :: ls
           end
  end.

(** *** UTF-8 *)

Definition byte_of_N (n : N) : byte := default x00 (Byte.of_N n).

Definition is_surrogate (c : N) : bool := (0xD800 <=? c) && (c <=? 0xDFFF).

(** The UTF-8 form of one code point; a lone surrogate has none
    (UnicodeEncodeError under the default 'strict' handler). *)
Definition encode_char (c : N) : option bytes :=
  if c <? 0x80 then Some [byte_of_N c]
  else if c <? 0x800 then
    Some [byte_of_N (N.lor 0xC0 (N.shiftr c 6));
          byte_of_N (N.lor 0x80 (N.land c 0x3F))]
  else if c <? 0x10000 then
    if is_surrogate c then None
    else Some [byte_of_N (N.lor 0xE0 (N.shiftr c 12));
               byte_of_N (N.lor 0x80 (N.land (N.shiftr c 6) 0x3F));
               byte_of_N (N.lor 0x80 (N.land c 0x3F))]
  else if c <? 0x110000 then
    Some [byte_of_N (N.lor 0xF0 (N.shiftr c 18));
          byte_of_N (N.lor 0x80 (N.land (N.shiftr c 12) 0x3F));
          byte_of_N (N.lor 0x80 (N.land (N.shiftr c 6) 0x3F));
          byte_of_N (N.lor 0x80 (N.land c 0x3F))]
  else None.

(** [s.encode('utf-8')]. *)
Fixpoint encode (s : str) : option bytes :=
  match s with
  | [] => Some []
  | c :: s' =>
      match encode_char c, encode s' with
      | Some bc, Some bs => Some (bc ++ bs)
      | _, _ => None
      end
  end.

Definition is_cont (x : byte) : bool :=
  N.land (Byte.to_N x) 0xC0 =? 0x80.
Definition low6 (x : byte) : N := N.land (Byte.to_N x) 0x3F.

(** [b.decode('utf-8')]: strict decoding; [None] is UnicodeDecodeError
    (bad lead or continuation byte, overlong form, surrogate, value above
    U+10FFFF, truncated sequence). *)
Fixpoint decode (bs : bytes) : option str :=
  match bs with
  | [] => Some []
  | b0 :: r0 =>
      let n0 := Byte.to_N b0 in
      if n0 <? 0x80 then cons n0 <$> decode r0
      else if (0xC2 <=? n0) && (n0 <=? 0xDF) then
        match r0 with
        | b1 :: r1 =>
            if is_cont b1
            then cons (N.lor (N.shiftl (N.land n0 0x1F) 6) (low6 b1)) <$> decode r1
            else None
        | _ => None
        end
      else if (0xE0 <=? n0) && (n0 <=? 0xEF) then
        match r0 with
        | b1 :: b2 :: r2 =>
            let c := N.lor (N.shiftl (N.land n0 0x0F) 12)
                       (N.lor (N.shiftl (low6 b1) 6) (low6 b2)) in
            if is_cont b1 && is_cont b2 && (0x800 <=? c) && negb (is_surrogate c)
            then cons c <$> decode r2
            else None
        | _ => None
        end
      else if (0xF0 <=? n0) && (n0 <=? 0xF4) then
        match r0 with
        | b1 :: b2 :: b3 :: r3 =>
            let c := N.lor (N.shiftl (N.land n0 0x07) 18)
                       (N.lor (N.shiftl (low6 b1) 12)
                          (N.lor (N.shiftl (low6 b2) 6) (low6 b3))) in
            if is_cont b1 && is_cont b2 && is_cont b3 &&
               (0x10000 <=? c) && (c <? 0x110000)
            then cons c <$> decode r3
            else None
        | _ => None
        end
      else None
  end.

(** [s.split(maxsplit=1)]: cut at whitespace, once. Leading whitespace is
    skipped; the first word ends at the next whitespace; what follows,
    without its leading whitespace, is the second part when it is not
    empty (its trailing whitespace is kept). *)
Fixpoint break_space (s : str) : str * str :=
  match s with
  | [] => ([], [])
  | c :: s' =>
      if isspace c then ([], s)
      else let '(w, r) := break_space s' in (c :: w, r)
  end.

Definition split_maxsplit1 (s : str) : list str :=
  match lstrip_by isspace s with
  | [] => []
  | s1 =>
      let '(w, r) := break_space s1 in
      match lstrip_by isspace r with
      | [] => [w]
      | r' => [w; r']
      end
  end.

(** [s.replace(old, '')] for a single character [old]. *)
Definition remove_char (old : N) (s : str) : str :=
  filter (fun c => c <> old) s.

End Py.

(** ** Exceptions, values and observable actions *)

(** Instances of Python's [Exception] that the link and the bridge meet.
    [OtherException] stands for whatever else a subscriber callback raises
    (TypeError on a wrong arity, ValueError from [int], ...). Signals that
    are not [Exception]s (KeyboardInterrupt, SystemExit) are not modelled. *)
Inductive exn :=
| SerialException (msg : str)
| FileNotFoundError (fname : str)
| UnicodeEncodeError
| UnicodeDecodeError
| AttributeError
| OtherException (what : string).

Inductive result (A : Type) :=
| Ok (a : A)
| Raise (e : exn).
Arguments Ok {A} a.
Arguments Raise {A} e.

(** Arguments passed to subscribers. *)
Inductive pyval :=
| VStr (s : str)
| VList (l : list str)
| VExn (e : exn).

(** What a call does that an observer outside can see, in order: an event
    raised into the dispatcher, a chunk put on the bridge's outbound queue,
    a sleep (in milliseconds). *)
Inductive action :=
| Raised (event : str) (args : list pyval)
| Sent (data : bytes)
| Slept (ms : N).

(** ** State, observable actions and exceptions: the monad of the methods

    A method of an object with state [S] maps the state before the call to
    the state after it, the actions performed and either the returned value
    or the exception raised. State changes and actions made before an
    exception are kept, as in Python. *)
Definition Eff (S A : Type) : Type := S -> S * list action * result A.

Definition ret {S A} (a : A) : Eff S A := fun s => (s, [], Ok a).

Definition bind {S A B} (m : Eff S A) (k : A -> Eff S B) : Eff S B :=
  fun s =>
    match m s with
    | (s1, a1, Ok x) => let '(s2, a2, r) := k x s1 in (s2, a1 ++ a2, r)
    | (s1, a1, Raise e) => (s1, a1, Raise e)
    end.

Definition raise {S A} (e : exn) : Eff S A := fun s => (s, [], Raise e).

(** [try: m  except Exception as exc: h exc]. *)
Definition try_except {S A} (m : Eff S A) (h : exn -> Eff S A) : Eff S A :=
  fun s =>
    match m s with
    | (s1, a1, Ok x) => (s1, a1, Ok x)
    | (s1, a1, Raise e) => let '(s2, a2, r) := h e s1 in (s2, a1 ++ a2, r)
    end.

Definition tell {S} (a : action) : Eff S unit := fun s => (s, [a], Ok tt).
Definition gets {S A} (f : S -> A) : Eff S A := fun s => (s, [], Ok (f s)).
Definition modify {S} (f : S -> S) : Eff S unit := fun s => (f s, [], Ok tt).

Declare Scope eff_scope.
Delimit Scope eff_scope with eff.
Notation "x <- m ;; k" := (bind m (fun x => k))
  (at level 100, m at next level, right associativity) : eff_scope.
Notation "m ;;; k" := (bind m (fun _ => k))
  (at level 100, right associativity) : eff_scope.
Local Open Scope eff_scope.

(** [for x in xs: body x]. *)
Fixpoint for_ {S A} (xs : list A) (body : A -> Eff S unit) : Eff S unit :=
  match xs with
  | [] => ret tt
  | x :: xs' => body x ;;; for_ xs' body
  end.

(** [time.sleep] and [asyncio.sleep]. *)
Definition sleep {S} (ms : N) : Eff S unit := tell (Slept ms).

(** A fallible built-in. *)
Definition lift_opt {S A} (e : exn) (o : option A) : Eff S A :=
  match o with
  | Some a => ret a
  | None => raise e
  end.

(** ** The transport bridge: websocketserial.py *)
Module WebSocketSerialThreaded.

(** The attributes that the synchronous methods use. The two queues hold
    chunks: one item per [put]. [_thread] tells whether a thread object is
    held; the event loop and the serial-port settings kept for
    compatibility are left out. *)
Record t := mk {
  url : str;
  timeout : option N;
  _is_open : bool;
  _read_queue : list bytes;
  _write_queue : list bytes;
  _thread : bool;
  _stop_event : bool
}.

Definition init (url : str) (timeout : option N) : t :=
  mk url timeout false [] [] false false.

Definition set_is_open (v : bool) (self : t) : t :=
  mk (url self) (timeout self) v (_read_queue self) (_write_queue self)
     (_thread self) (_stop_event self).
Definition set_read_queue (q : list bytes) (self : t) : t :=
  mk (url self) (timeout self) (_is_open self) q (_write_queue self)
     (_thread self) (_stop_event self).
Definition set_write_queue (q : list bytes) (self : t) : t :=
  mk (url self) (timeout self) (_is_open self) (_read_queue self) q
     (_thread self) (_stop_event self).
Definition set_thread (v : bool) (self : t) : t :=
  mk (url self) (timeout self) (_is_open self) (_read_queue self)
     (_write_queue self) v (_stop_event self).
Definition set_stop_event (v : bool) (self : t) : t :=
  mk (url self) (timeout self) (_is_open self) (_read_queue self)
     (_write_queue self) (_thread self) v.

Definition not_open : exn := SerialException (u "Port is not open").

(** [open]. The thread started here connects on its own; [established]
    says whether it has set [_is_open] by the end of the 0.1 s wait. *)
Definition open (established : bool) : Eff t unit :=
  o <- gets _is_open ;; th <- gets _thread ;;
  if o || th then ret tt
  else
    modify (set_stop_event false) ;;;
    modify (set_thread true) ;;;
    sleep 100 ;;;
    modify (set_is_open established) ;;;
    o <- gets _is_open ;; stop <- gets _stop_event ;;
    if negb o && negb stop
    then
      url <- gets url ;;
      raise (SerialException (u "Failed to open WebSocket connection to " ++ url))
    else ret tt.

Definition is_open : Eff t bool := gets _is_open.

(** [close]: stop the loops, drop the thread. *)
Definition close : Eff t unit :=
  o <- gets _is_open ;; th <- gets _thread ;;
  if o || th then
    modify (set_stop_event true) ;;;
    modify (set_thread false) ;;;
    modify (set_is_open false)
  else ret tt.

(** The argument of [write]: a str or a bytes. *)
Inductive data :=
| DStr (s : str)
| DBytes (b : bytes).

(** [write]: put the chunk on the outbound queue, return its length. *)
Definition write (d : data) : Eff t nat :=
  o <- gets _is_open ;;
  if negb o then raise not_open
  else
    d <- match d with
         | DStr s => lift_opt UnicodeEncodeError (Py.encode s)
         | DBytes b => ret b
         end ;;
    modify (fun self => set_write_queue (_write_queue self ++ [d]) self) ;;;
    tell (Sent d) ;;;
    ret (length d).

(** [self._read_queue.get(timeout=self.timeout)] on a bridge that has a
    timeout: the oldest chunk of the inbound queue; with none there when
    the wait ends, [queue.Empty] ([None]). Without a timeout the wait on an
    empty queue has no end and the call does not return: [get], [read] and
    [readline] tell what a call returns when it returns, which it always
    does with a timeout (the link sets 0.5 s), and the properties stated
    for the bridge alone say when they need one. *)
Definition get (self : t) : option (bytes * t) :=
  match _read_queue self with
  | [] => None
  | c :: q => Some (c, set_read_queue q self)
  end.

(** The loop of [read]: [for _ in range(size)], left at [queue.Empty]. *)
Fixpoint read_loop (size : nat) (data : bytes) (self : t) : bytes * t :=
  match size with
  | O => (data, self)
  | S size' =>
      match get self with
      | Some (byte, self') => read_loop size' (data ++ byte) self'
      | None => (data, self)
      end
  end.

Definition read (size : nat) : Eff t bytes :=
  o <- gets _is_open ;;
  if negb o then raise not_open
  else fun self => let '(data, self') := read_loop size [] self in (self', [], Ok data).

(** [b1 == b2] on bytes. *)
Fixpoint bytes_eqb (b1 b2 : bytes) : bool :=
  match b1, b2 with
  | [], [] => true
  | x :: b1', y :: b2' => Byte.eqb x y && bytes_eqb b1' b2'
  | _, _ => false
  end.

(** The loop of [readline]: chunks are taken until one of them is b'\n',
    or the line has reached [size] (when [size] is not -1), or the queue is
    empty when the wait ends (a wait that ends only with a timeout, as for
    [get]). *)
Fixpoint readline_loop (size : Z) (line : bytes) (q : list bytes)
    : bytes * list bytes :=
  match q with
  | [] => (line, [])
  | byte :: q' =>
      let line := line ++ byte in
      if bytes_eqb byte [x0a] then (line, q')
      else if negb (size =? -1)%Z && (size <=? Z.of_nat (length line))%Z
      then (line, q')
      else readline_loop size line q'
  end.

Definition readline (size : Z) : Eff t bytes :=
  o <- gets _is_open ;;
  if negb o then raise not_open
  else fun self =>
         let '(line, q) := readline_loop size [] (_read_queue self) in
         (set_read_queue q self, [], Ok line).

Definition in_waiting : Eff t nat := gets (fun self => length (_read_queue self)).

(** The property [port] and its setter. *)
Definition port : Eff t str := gets url.

Definition set_url (v : str) (self : t) : t :=
  mk v (timeout self) (_is_open self) (_read_queue self) (_write_queue self)
     (_thread self) (_stop_event self).

Definition port_setter (value : str) : Eff t unit :=
  o <- gets _is_open ;;
  if o then raise (SerialException (u "Cannot change port while open"))
  else modify (set_url value).

End WebSocketSerialThreaded.

(** ** The link: viii.py *)
Module Deviceviii.

(** Records of the module's logger. *)
Inductive log_record :=
| InfoConnected (port : str)
| ErrorHandler (event : str) (handler : string) (exc : exn)
| DebugTx (b : bytes)
| DebugRx (b : bytes)
| InfoOpenedFile (fname : str)
| ErrorLostConnection (exc : exn).

Section Link.

(** Whatever the subscribers' callbacks act on (the interface's text
    areas, say). *)
Context {W : Type}.

(** A subscriber: its printed form and what calling it with the given
    arguments does, returning or raising. *)
Record handler := {
  h_repr : string;
  h_call : list pyval -> W -> W * option exn
}.

(** The attributes of a [Deviceviii] and, below them, the surroundings
    its methods act on: the subscribers' world, the text of the files
    that exist, the outcome of the connection attempts still to come
    (an attempt with no outcome listed fails), and the log. *)
Record state := mk {
  serial : option WebSocketSerialThreaded.t;
  is_connected : bool;
  event_handlers : gmap str (list handler);
  user : W;
  files : gmap str str;
  net : list bool;
  log : list log_record
}.

Definition set_serial (v : option WebSocketSerialThreaded.t) (st : state) :=
  mk v (is_connected st) (event_handlers st) (user st) (files st) (net st) (log st).
Definition set_is_connected (v : bool) (st : state) :=
  mk (serial st) v (event_handlers st) (user st) (files st) (net st) (log st).
Definition set_event_handlers (v : gmap str (list handler)) (st : state) :=
  mk (serial st) (is_connected st) v (user st) (files st) (net st) (log st).
Definition set_user (v : W) (st : state) :=
  mk (serial st) (is_connected st) (event_handlers st) v (files st) (net st) (log st).
Definition set_net (v : list bool) (st : state) :=
  mk (serial st) (is_connected st) (event_handlers st) (user st) (files st) v (log st).
Definition set_log (v : list log_record) (st : state) :=
  mk (serial st) (is_connected st) (event_handlers st) (user st) (files st) (net st) v.

(** [__init__]. *)
Definition init (w : W) (fs : gmap str str) (outcomes : list bool) : state :=
  mk None false ∅ w fs outcomes [].

Definition logger (r : log_record) : Eff state unit :=
  modify (fun st => set_log (log st ++ [r]) st).

(** A call [self.serial.m(...)]. *)
Definition on_serial {A} (m : Eff WebSocketSerialThreaded.t A) : Eff state A :=
  fun st =>
    match serial st with
    | Some br => let '(br', acts, r) := m br in (set_serial (Some br') st, acts, r)
    | None => (st, [], Raise AttributeError)
    end.

(** The next connection attempt's outcome. *)
Definition attempt : Eff state bool :=
  fun st =>
    match net st with
    | [] => (st, [], Ok false)
    | o :: rest => (set_net rest st, [], Ok o)
    end.

(** The call of a subscriber with the arguments of the event. *)
Definition call (h : handler) (args : list pyval) : Eff state unit :=
  fun st =>
    let '(w, r) := h_call h args (user st) in
    (set_user w st, [],
     match r with
     | None => Ok tt
     | Some exc => Raise exc
     end).

Definition connect : Eff state unit :=
  modify (set_serial
            (Some (WebSocketSerialThreaded.init (u "ws://localhost:8765") (Some 500)))) ;;;
  established <- attempt ;;
  on_serial (WebSocketSerialThreaded.open established) ;;;
  port <- on_serial (gets WebSocketSerialThreaded.url) ;;
  logger (InfoConnected port).

Definition disconnect : Eff state unit :=
  modify (set_is_connected false) ;;;
  s <- gets serial ;;
  match s with
  | Some _ => on_serial WebSocketSerialThreaded.close
  | None => ret tt
  end.

Definition raise_event (event : str) (args : list pyval) : Eff state unit :=
  tell (Raised event args) ;;;
  handlers <- gets (fun st => event_handlers st !! event) ;;
  match handlers with
  | None => ret tt
  | Some handlers =>
      for_ handlers (fun handler =>
        try_except (call handler args)
          (fun exc => logger (ErrorHandler event (h_repr handler) exc)))
  end.

Definition replace_handlers (handlers : gmap str (list handler)) : Eff state unit :=
  modify (set_event_handlers handlers).

Definition reconnect (err_event : bool) : Eff state unit :=
  try_except
    (connect ;;;
     s <- gets serial ;;
     match s with
     | Some br =>
         if WebSocketSerialThreaded._is_open br
         then modify (set_is_connected true) ;;; raise_event (u "connect") []
         else ret tt
     | None => ret tt
     end)
    (fun exc =>
       c <- gets is_connected ;;
       if c || err_event
       then modify (set_is_connected false) ;;;
            raise_event (u "connect_err") [VExn exc]
       else ret tt).

Definition writebin (b : bytes) : Eff state unit :=
  s <- gets serial ;;
  match s with
  | Some _ =>
      let b := if (length b mod 64 =? 0)%nat then b ++ [x0a] else b in
      logger (DebugTx b) ;;;
      on_serial (WebSocketSerialThreaded.write (WebSocketSerialThreaded.DBytes b)) ;;;
      ret tt
  | None => ret tt
  end.

Definition write (s : str) : Eff state unit :=
  b <- lift_opt UnicodeEncodeError (Py.encode s) ;;
  writebin b.

Definition writeline (line : str) : Eff state unit :=
  write (line ++ [CR; LF]).

(** [open(fname)]: the text of the file, or FileNotFoundError. *)
Definition open_ (fname : str) : Eff state str :=
  fs <- gets files ;;
  lift_opt (FileNotFoundError fname) (fs !! fname).

Definition writefile (fname : str) : Eff state unit :=
  f <- open_ fname ;;
  logger (InfoOpenedFile fname) ;;;
  for_ (Py.readlines f) (fun line =>
    writeline (Py.rstrip line) ;;;
    sleep 1).

Definition _upload (fname event end_ : str) : Eff state unit :=
  raise_event event [VStr fname] ;;;
  writeline (u "^^s") ;;;
  sleep 100 ;;;
  writefile fname ;;;
  sleep 100 ;;;
  writeline end_ ;;;
  sleep 100 ;;;
  writeline (u "^^z").

Definition execute (fname : str) : Eff state unit :=
  _upload fname (u "running") (u "^^e").

Definition upload (fname : str) : Eff state unit :=
  _upload fname (u "uploading") (u "^^w").

Definition readbin (count : nat) : Eff state bytes :=
  s <- gets serial ;;
  b <- match s with
       | Some _ => on_serial (WebSocketSerialThreaded.read count)
       | None => ret []
       end ;;
  (if Py.truthy b then logger (DebugRx b) else ret tt) ;;;
  ret b.

Definition read (count : nat) : Eff state str :=
  b <- readbin count ;;
  lift_opt UnicodeDecodeError (Py.decode b).

Definition process_line (line : str) : Eff state unit :=
  if Py.contains (u "^^") line then
    let cmds := Py.split (u "^^") line in
    for_ cmds (fun cmd =>
      let '(t3_0, t3_1, t3_2) := Py.partition (u "(") (Py.rstrip cmd) in
      if negb (Py.any [t3_0; t3_1; t3_2]) then ret tt
      else
        let evt := t3_0 in
        let args := Py.split (u ",") (Py.rstrip_chars (u ")") t3_2) in
        raise_event (u "iii_event") [VStr line; VStr evt; VList args])
  else if Py.truthy line then raise_event (u "iii_output") [VStr line]
  else ret tt.

(** One turn of the [while True] of [read_forever]. *)
Definition read_forever_body : Eff state unit :=
  let sleeptime := 1 in
  sleeptime <-
    try_except
      (r <- read (100 * 100) ;;
       let r : str := [] in
       (if Py.truthy r then
          let lines := Py.split [LF; CR] r in
          for_ lines process_line
        else ret tt) ;;;
       ret sleeptime)
      (fun exc =>
         c <- gets is_connected ;;
         (if c then logger (ErrorLostConnection exc) else ret tt) ;;;
         let sleeptime := 100 in
         reconnect false ;;;
         ret sleeptime) ;;
  sleep sleeptime.

(** The first [n] turns of [read_forever]. *)
Fixpoint read_forever (n : nat) : Eff state unit :=
  match n with
  | O => ret tt
  | S n' => read_forever_body ;;; read_forever n'
  end.

(** [__exit__]. *)
Definition exit_ : Eff state unit :=
  c <- gets is_connected ;;
  if c then disconnect else ret tt.

End Link.

Arguments handler : clear implicits.
Arguments state : clear implicits.

End Deviceviii.

(** ** Derived notions used to state the properties *)

Import Deviceviii.

(** The state after a call, the actions it performed and its outcome. *)
Definition after {S A} (m : Eff S A) (s : S) : S := (m s).1.1.
Definition acts_of {S A} (m : Eff S A) (s : S) : list action := (m s).1.2.
Definition outcome {S A} (m : Eff S A) (s : S) : result A := (m s).2.

(** The byte that [writebin] adds to a chunk whose length is a multiple of
    64. *)
Definition padding (b : bytes) : bytes :=
  if (length b mod 64 =? 0)%nat then [x0a] else [].

(** The line terminator on the wire. *)
Definition CRLF : bytes := [x0d; x0a].

Section Notions.

Context {W : Type}.

(** The link has a bridge and the bridge is open. *)
Definition connected (st : state W) : Prop :=
  exists br, serial st = Some br /\ WebSocketSerialThreaded._is_open br = true.

(** The bridge's outbound queue. *)
Definition outbound (st : state W) : list bytes :=
  match serial st with
  | Some br => WebSocketSerialThreaded._write_queue br
  | None => []
  end.

(** The state after the open bridge [br] of [st] has taken the chunk [d]
    from [writebin]. *)
Definition enqueued (d : bytes) (br : WebSocketSerialThreaded.t) (st : state W)
    : state W :=
  set_serial
    (Some (WebSocketSerialThreaded.set_write_queue
             (WebSocketSerialThreaded._write_queue br ++ [d]) br))
    (set_log (log st ++ [DebugTx d]) st).

(** The chunk that [writeline] hands to the bridge for a line whose UTF-8
    form is [b]. *)
Definition wire (b : bytes) : bytes := (b ++ CRLF) ++ padding (b ++ CRLF).

(** The exception of [open] when the connection is not established in
    time, for the link's endpoint. *)
Definition open_failed : exn :=
  SerialException
    (u "Failed to open WebSocket connection to " ++ u "ws://localhost:8765").

(** The subscribers of an event, in registration order. *)
Definition subscribers (st : state W) (event : str) : list (handler W) :=
  default [] (event_handlers st !! event).

(** The world after the subscribers [hs] have been called one after the
    other with [args], each on the world the previous one left. *)
Definition deliver (args : list pyval) (hs : list (handler W)) (w : W) : W :=
  foldl (fun w h => (h_call h args w).1) w hs.

(** The log records of the subscribers among [hs] that raise when called
    in that order. *)
Fixpoint failures (event : str) (args : list pyval) (hs : list (handler W))
    (w : W) : list log_record :=
  match hs with
  | [] => []
  | h :: hs' =>
      match (h_call h args w).2 with
      | Some exc => [ErrorHandler event (h_repr h) exc]
      | None => []
      end ++ failures event args hs' (h_call h args w).1
  end.

(** The chunks put on the outbound queue among some actions, and the
    events raised among them. *)
Definition sent (acts : list action) : list bytes :=
  omap (fun a => match a with Sent d => Some d | _ => None end) acts.

Definition raised (acts : list action) : list (str * list pyval) :=
  omap (fun a => match a with Raised e args => Some (e, args) | _ => None end) acts.

(** The structured event of one segment of a received line: none when
    the segment is empty once its trailing whitespace is removed; else the
    name is what precedes the first open-parenthesis of the right-stripped
    segment, and the arguments are what follows it, without the
    close-parentheses at its end, cut at the commas. *)
Definition segment_event (cmd : str) : option (str * list str) :=
  let s := Py.rstrip cmd in
  if Py.truthy s
  then Some ((Py.partition (u "(") s).1.1,
             Py.split (u ",") (Py.rstrip_chars (u ")") (Py.partition (u "(") s).2))
  else None.

(** The action of raising a structured event for [line]. *)
Definition iii_event (line : str) (ev : str * list str) : action :=
  Raised (u "iii_event") [VStr line; VStr ev.1; VList ev.2].

(** The tokenizer in the specification's words: the name is the trimmed
    text before the first open-parenthesis of the segment, the argument
    text is the remainder without one close-parenthesis at its end, and a
    segment whose name and argument text are both empty gives nothing. *)
Definition drop_close (s : str) : str :=
  match reverse s with
  | c :: r => if c =? 41 then reverse r else s
  | [] => s
  end.

Definition spec_segment_event (cmd : str) : option (str * list str) :=
  let name := Py.strip (Py.partition (u "(") cmd).1.1 in
  let argtext := drop_close (Py.partition (u "(") cmd).2 in
  if negb (Py.truthy name) && negb (Py.truthy argtext) then None
  else Some (name, Py.split (u ",") argtext).

Definition spec_tokenize (line : str) : list action :=
  iii_event line <$> omap spec_segment_event (Py.split (u "^^") line).

End Notions.

(** ** Concrete links

    States reached by the code itself from [__init__], with subscribers'
    world [unit] and no subscriber. *)

(** What the bridge's own thread does to it between two calls of the link:
    the receiver puts the chunks that arrived on the inbound queue; the
    connection ends and [_is_open] is reset. *)
Definition on_bridge {W} (f : WebSocketSerialThreaded.t -> WebSocketSerialThreaded.t)
    (st : state W) : state W :=
  set_serial (f <$> serial st) st.

Definition receive {W} (chunks : list bytes) : state W -> state W :=
  on_bridge (fun br =>
    WebSocketSerialThreaded.set_read_queue
      (WebSocketSerialThreaded._read_queue br ++ chunks) br).

Definition connection_lost {W} : state W -> state W :=
  on_bridge (WebSocketSerialThreaded.set_is_open false).

Definition inbound {W} (st : state W) : list bytes :=
  match serial st with
  | Some br => WebSocketSerialThreaded._read_queue br
  | None => []
  end.

(** A link just created. *)
Definition never_connected : state unit := init tt ∅ [].

(** A link after a first [reconnect] that succeeded, with the files [fs]
    around and [outcomes] for the connection attempts to come. *)
Definition link_up (fs : gmap str str) (outcomes : list bool) : state unit :=
  after (reconnect true) (init tt fs (true :: outcomes)).

(** A link after a first [reconnect] that failed: it holds a bridge that is
    not open. *)
Definition link_down : state unit := after (reconnect true) (init tt ∅ [false]).

(** A script of two lines, and one whose only line has 62 characters. *)
Definition two_lines : gmap str str :=
  {[ u "f.lua" := u "ab  " ++ [LF] ++ u "cd" ]}.
Definition line62 : gmap str str :=
  {[ u "f.lua" := replicate 62 97 ++ [LF] ]}.

(** Two subscribers of one event on a world that records the calls: the
    first raises after recording, the second returns. *)
Definition failing_subscriber : handler (list string) :=
  {| h_repr := "first";
     h_call := fun _ w => (w ++ ["first"%string], Some (OtherException "boom")) |}.
Definition recording_subscriber : handler (list string) :=
  {| h_repr := "second";
     h_call := fun _ w => (w ++ ["second"%string], None) |}.
Definition two_subscribers : state (list string) :=
  after (replace_handlers {[ u "X" := [failing_subscriber; recording_subscriber] ]})
    (init [] ∅ []).

(** The chunks of a transfer in the specification's words: ^^s, every line,
    the mode marker, ^^z, each followed by the line terminator. *)
Definition spec_upload_chunks (lines : list bytes) (mode : bytes) : list bytes :=
  (fun l => l ++ CRLF) <$> (b8 "^^s" :: lines ++ [mode; b8 "^^z"]).

(** ** The shell's command line: repl.py

    [DiiiRepl.parse] and what it needs. The text areas belong to the
    interface toolkit: what inserting text at the end of the output field,
    printing and leaving the application do to the subscribers' world is
    given from outside. [os.path.isfile] holds of the paths that have a
    text in [files]. *)
Module DiiiRepl.

Definition diii_help : str :=
  [LF] ++ u " h            this menu" ++ [LF]
  ++ u " u <filename> upload <filename>" ++ [LF]
  ++ u " u            upload previous file" ++ [LF]
  ++ u " p            print current script" ++ [LF]
  ++ u " q            quit" ++ [LF].

Section Repl.

Context {W : Type}.
Variable insert_at_end : str -> W -> W.
Variable print : str -> W -> W.
Variable app_exit : W -> W.

(** The link held by the page and the module's global [last_script]. *)
Record t := mk {
  iii : state W;
  last_script : str
}.

Definition set_iii (v : state W) (self : t) : t := mk v (last_script self).
Definition set_last_script (v : str) (self : t) : t := mk (iii self) v.

(** A call of a method of [self.iii]. *)
Definition on_iii {A} (m : Eff (state W) A) : Eff t A :=
  fun self => let '(st, acts, r) := m (iii self) in (set_iii st self, acts, r).

(** An effect on the interface. *)
Definition ui (f : W -> W) : Eff t unit :=
  modify (fun self => set_iii (set_user (f (user (iii self))) (iii self)) self).

Definition output (st : str) : Eff t unit :=
  ui (insert_at_end (Py.remove_char CR st)).

Definition isfile (path : str) : Eff t bool :=
  gets (fun self => bool_decide (is_Some (files (iii self) !! path))).

Definition parse (cmd : str) : Eff t unit :=
  let parts := Py.split_maxsplit1 cmd in
  if (length parts =? 0)%nat then ret tt
  else
    let c := default [] (parts !! 0%nat) in
    if bool_decide (c = u "u") then
      if (length parts =? 1)%nat then
        last <- gets last_script ;;
        if (length last =? 0)%nat
        then output (u "  u <filename> to upload script")
        else on_iii (upload last)
      else
        isf <- (if (length parts =? 2)%nat
                then isfile (default [] (parts !! 1%nat))
                else ret false) ;;
        if isf then
          modify (set_last_script (default [] (parts !! 1%nat))) ;;;
          on_iii (upload (default [] (parts !! 1%nat)))
        else on_iii (writeline cmd)
    else if (length parts =? 1)%nat then
      if bool_decide (c = u "q") then ui (print (u "bye.")) ;;; ui app_exit
      else if bool_decide (c = u "p") then on_iii (writeline (u "^^p"))
      else if bool_decide (c = u "h") then output diii_help
      else on_iii (writeline cmd)
    else on_iii (writeline cmd).

(** [accept]: echo the input line, then [parse] it. *)
Definition accept (text : str) : Eff t unit :=
  output ([LF] ++ u "> " ++ text ++ [LF]) ;;;
  parse text.

End Repl.

Arguments t : clear implicits.

End DiiiRepl.

(** The text that came back: the chunks of an echoing peer are what the
    link has sent. *)
Definition echoed {W} (acts : list action) : state W -> state W :=
  receive (sent acts).

(** A shell on a list of the texts shown: what is inserted, printed or done
    on leaving is appended. Its link has connected once, with the files
    [fs] around. *)
Definition shown (text : str) (w : list str) : list str := w ++ [text].
Definition left_app (w : list str) : list str := w ++ [u "<exit>"].
Definition shell (fs : gmap str str) : DiiiRepl.t (list str) :=
  DiiiRepl.mk (after (reconnect true) (init [] fs [true])) [].

(** Arithmetic with division and remainder by constants. *)
Ltac divmod := zify; Z.to_euclidean_division_equations; lia.

(** What the methods that do not connect or disconnect leave alone: the
    bridge held, [is_connected], the subscriber table, the files and the
    connection attempts to come. *)
Definition link_kept {W} (st st' : state W) : Prop :=
  serial st' = serial st /\ is_connected st' = is_connected st /\
  event_handlers st' = event_handlers st /\ files st' = files st /\
  net st' = net st.

(** A bridge as [connect] creates it, and the same after [open] has
    succeeded. *)
Definition new_bridge : WebSocketSerialThreaded.t :=
  WebSocketSerialThreaded.init (u "ws://localhost:8765") (Some 500).
Definition open_bridge : WebSocketSerialThreaded.t :=
  after (WebSocketSerialThreaded.open true) new_bridge.

(** ** Properties *)

Example split_marker :
  Py.split (u "^^") (u "foo(1,2)^^bar(3)") = [u "foo(1,2)"; u "bar(3)"].
Proof. reflexivity. Qed.

Example split_overlap : Py.split (u "^^") (u "a^^^b^^") = [u "a"; u "^b"; u ""].
Proof. reflexivity. Qed.

Example partition_paren :
  Py.partition (u "(") (u "foo(1,(2))") = (u "foo", u "(", u "1,(2))").
Proof. reflexivity. Qed.

Example rstrip_ws : Py.rstrip (u "a b  ") = u "a b".
Proof. reflexivity. Qed.

Example readlines_3 :
  Py.readlines [97; 10; 10; 98] = [[97; 10]; [10]; [98]].
Proof. reflexivity. Qed.

Example encode_euro : Py.encode [0x20AC; 0x41] = Some [xe2; x82; xac; x41].
Proof. reflexivity. Qed.

Example decode_euro : Py.decode [xe2; x82; xac; x41] = Some [0x20AC; 0x41].
Proof. reflexivity. Qed.

Example decode_overlong : Py.decode [xc0; x80] = None.
Proof. reflexivity. Qed.

(** A subscriber that raises does not keep the next one from being called. *)
Example second_subscriber_runs :
  user (after (raise_event (u "X") []) two_subscribers)
  = ["first"%string; "second"%string] /\
  log (after (raise_event (u "X") []) two_subscribers)
  = [ErrorHandler (u "X") "first" (OtherException "boom")] /\
  outcome (raise_event (u "X") []) two_subscribers = Ok tt.
Proof. vm_compute. repeat split. Qed.

(** After [replace_handlers] the old table is gone. *)
Example replaced_handlers_only :
  user (after (replace_handlers ∅ ;;; raise_event (u "X") []) two_subscribers) = [].
Proof. reflexivity. Qed.

Section Properties.

Context {W : Type}.
Implicit Types (st : state W) (br : WebSocketSerialThreaded.t).

Lemma bind_ok {S A B} (m : Eff S A) (k : A -> Eff S B) s s1 a1 x s2 a2 r :
  m s = (s1, a1, Ok x) -> k x s1 = (s2, a2, r) ->
  bind m k s = (s2, a1 ++ a2, r).
Proof. intros Hm Hk. unfold bind. rewrite Hm, Hk. reflexivity. Qed.

Lemma bind_raise {S A B} (m : Eff S A) (k : A -> Eff S B) s s1 a1 e :
  m s = (s1, a1, Raise e) -> bind m k s = (s1, a1, Raise e).
Proof. intros Hm. unfold bind. rewrite Hm. reflexivity. Qed.

Lemma bind_run {S A B} (m : Eff S A) (k : A -> Eff S B) s :
  bind m k s
  = match m s with
    | (s1, a1, Ok x) => let '(s2, a2, r) := k x s1 in (s2, a1 ++ a2, r)
    | (s1, a1, Raise e) => (s1, a1, Raise e)
    end.
Proof. reflexivity. Qed.

Lemma state_eta st :
  Deviceviii.mk (serial st) (is_connected st) (event_handlers st) (user st)
    (files st) (net st) (log st) = st.
Proof. destruct st; reflexivity. Qed.

(** *** The dispatcher *)

Lemma for_handlers event args (hs : list (handler W)) st :
  for_ hs (fun handler =>
    try_except (call handler args)
      (fun exc => logger (ErrorHandler event (h_repr handler) exc))) st
  = (set_log (log st ++ failures event args hs (user st))
       (set_user (deliver args hs (user st)) st), [], Ok tt).
Proof.
  revert st. induction hs as [|h hs IH]; intros st.
  - simpl. unfold ret, set_log, set_user. simpl.
    rewrite app_nil_r, state_eta. reflexivity.
  - cbn [for_ failures deliver foldl]. unfold bind at 1.
    unfold try_except at 1, call at 1.
    destruct (h_call h args (user st)) as [w [exc|]] eqn:Hc; cbn [fst snd].
    + unfold logger, modify. rewrite IH. cbn.
      unfold set_log, set_user; cbn. rewrite <- app_assoc. reflexivity.
    + rewrite IH. cbn. unfold set_log, set_user; cbn. reflexivity.
Qed.

Lemma raise_event_run event args st :
  raise_event event args st
  = (set_log (log st ++ failures event args (subscribers st event) (user st))
       (set_user (deliver args (subscribers st event) (user st)) st),
     [Raised event args], Ok tt).
Proof.
  unfold raise_event, subscribers, bind, tell, gets.
  destruct (event_handlers st !! event) as [hs|]; cbn [default].
  - rewrite for_handlers. reflexivity.
  - cbn. unfold set_log, set_user; cbn. rewrite app_nil_r, state_eta. reflexivity.
Qed.

Lemma failures_lookup event args (hs : list (handler W)) w i h exc :
  hs !! i = Some h ->
  (h_call h args (deliver args (take i hs) w)).2 = Some exc ->
  ErrorHandler event (h_repr h) exc ∈ failures event args hs w.
Proof.
  revert i w. induction hs as [|h0 hs IH]; intros i w Hi Hexc;
    [destruct i; discriminate|].
  cbn [failures]. destruct i as [|i]; cbn in Hi, Hexc.
  - injection Hi as ->. unfold deliver in Hexc. cbn in Hexc. rewrite Hexc.
    apply elem_of_app. left. apply list_elem_of_singleton. reflexivity.
  - apply elem_of_app. right. apply (IH i _ Hi). exact Hexc.
Qed.

(** C6. Raising an event never fails and changes nothing but the
    subscribers' world and the log. With no subscriber list registered for
    the event it changes nothing at all. Otherwise the subscribers are
    called in registration order, each on the world left by the ones
    before it whether they returned or raised; each subscriber that
    raises is logged, and none of its exceptions reaches the caller. *)
Theorem raise_event_isolates_subscribers st event args :
  let hs := subscribers st event in
  let st' := after (raise_event event args) st in
  outcome (raise_event event args) st = Ok tt /\
  acts_of (raise_event event args) st = [Raised event args] /\
  user st' = deliver args hs (user st) /\
  log st' = log st ++ failures event args hs (user st) /\
  (forall i h exc,
      hs !! i = Some h ->
      (h_call h args (deliver args (take i hs) (user st))).2 = Some exc ->
      ErrorHandler event (h_repr h) exc ∈ log st') /\
  (serial st' = serial st /\ is_connected st' = is_connected st /\
   event_handlers st' = event_handlers st /\ files st' = files st /\
   net st' = net st) /\
  (event_handlers st !! event = None -> st' = st).
Proof.
  intros hs st'. subst st'. unfold after, outcome, acts_of.
  rewrite raise_event_run. fold hs. cbn.
  repeat split; try reflexivity.
  - intros i h exc Hi Hexc. apply elem_of_app. right.
    exact (failures_lookup event args hs (user st) i h exc Hi Hexc).
  - intros Hnone. unfold hs, subscribers. rewrite Hnone. cbn.
    unfold set_log, set_user; cbn. rewrite app_nil_r. apply state_eta.
Qed.

(** *** Writing *)

Lemma encode_app s1 s2 b1 b2 :
  Py.encode s1 = Some b1 -> Py.encode s2 = Some b2 ->
  Py.encode (s1 ++ s2) = Some (b1 ++ b2).
Proof.
  revert b1. induction s1 as [|c s1 IH]; intros b1 H1 H2; cbn in *.
  - injection H1 as <-. exact H2.
  - destruct (Py.encode_char c) as [bc|]; [|discriminate].
    destruct (Py.encode s1) as [bs|]; [|discriminate].
    injection H1 as <-. rewrite (IH bs eq_refl H2), app_assoc. reflexivity.
Qed.

Lemma writebin_open st br b :
  serial st = Some br -> WebSocketSerialThreaded._is_open br = true ->
  writebin b st = (enqueued (b ++ padding b) br st, [Sent (b ++ padding b)], Ok tt).
Proof.
  intros Hs Ho. unfold writebin, bind at 1, gets at 1. rewrite Hs.
  assert (Hb : (if (length b mod 64 =? 0)%nat then b ++ [x0a] else b) = b ++ padding b).
  { unfold padding. destruct (length b mod 64 =? 0)%nat; [reflexivity|].
    rewrite app_nil_r. reflexivity. }
  rewrite Hb. generalize (b ++ padding b). intros d.
  unfold bind, logger, modify, on_serial, WebSocketSerialThreaded.write, gets,
    tell, ret; cbn.
  rewrite Hs, Ho. cbn. reflexivity.
Qed.

Lemma write_open st br s bs :
  serial st = Some br -> WebSocketSerialThreaded._is_open br = true ->
  Py.encode s = Some bs ->
  write s st = (enqueued (bs ++ padding bs) br st, [Sent (bs ++ padding bs)], Ok tt).
Proof.
  intros Hs Ho He. unfold write, lift_opt. rewrite He.
  unfold bind, ret. rewrite (writebin_open st br bs Hs Ho). reflexivity.
Qed.

Lemma encode_crlf : Py.encode [CR; LF] = Some CRLF.
Proof. reflexivity. Qed.

(** C7, as the code has it. On a link whose bridge is open, [write s] puts
    one chunk on the outbound queue: the UTF-8 form of [s], followed by
    one more byte, a line feed, exactly when the length of that form is a
    multiple of 64 (the empty string included). [writeline s] does the
    same with the UTF-8 form of [s] followed by CR LF. *)
Theorem write_sends_padded_utf8 st br s bs :
  serial st = Some br -> WebSocketSerialThreaded._is_open br = true ->
  Py.encode s = Some bs ->
  (outcome (write s) st = Ok tt /\
   acts_of (write s) st = [Sent (bs ++ padding bs)] /\
   outbound (after (write s) st)
   = WebSocketSerialThreaded._write_queue br ++ [bs ++ padding bs]) /\
  (outcome (writeline s) st = Ok tt /\
   acts_of (writeline s) st = [Sent ((bs ++ CRLF) ++ padding (bs ++ CRLF))] /\
   outbound (after (writeline s) st)
   = WebSocketSerialThreaded._write_queue br ++ [(bs ++ CRLF) ++ padding (bs ++ CRLF)]) /\
  (padding bs = if decide (length bs mod 64 = 0)%nat then [x0a] else []).
Proof.
  intros Hs Ho He. unfold outcome, acts_of, after, writeline.
  rewrite (write_open st br s bs Hs Ho He).
  rewrite (write_open st br _ _ Hs Ho (encode_app _ _ _ _ He encode_crlf)).
  unfold outbound. cbn [fst snd enqueued set_serial serial
    WebSocketSerialThreaded.set_write_queue WebSocketSerialThreaded._write_queue].
  repeat split.
  unfold padding. destruct (Nat.eqb_spec (length bs mod 64) 0) as [E|E];
    destruct (decide (length bs mod 64 = 0)%nat); congruence.
Qed.

(** *** The built-ins behind the tokenizer *)

Lemma startswith_app s sep :
  Py.startswith s sep = true -> s = sep ++ drop (length sep) s.
Proof.
  revert s. induction sep as [|p sep IH]; intros s H; [reflexivity|].
  destruct s as [|c s]; [discriminate|]. cbn in H.
  apply andb_true_iff in H as [Hc Hs]. apply N.eqb_eq in Hc. subst p.
  cbn. f_equal. apply IH, Hs.
Qed.

(** [partition] finds [sep] and cuts around it, or finds nothing. *)
Lemma partition_cases sep s :
  sep <> [] ->
  (exists hd tl, Py.partition sep s = (hd, sep, tl) /\ s = hd ++ sep ++ tl) \/
  Py.partition sep s = (s, [], []).
Proof.
  intros Hsep. induction s as [|c s IH]; [right; reflexivity|].
  cbn [Py.partition]. destruct (Py.startswith (c :: s) sep) eqn:Hp.
  - left. exists [], (drop (length sep) (c :: s)). split; [reflexivity|].
    apply startswith_app, Hp.
  - destruct IH as [(hd & tl & -> & Hs)| -> ].
    + left. exists (c :: hd), tl. split; [reflexivity|]. cbn. congruence.
    + right. reflexivity.
Qed.

Lemma partition_any sep s :
  sep <> [] ->
  (let '(t0, t1, t2) := Py.partition sep s in Py.any [t0; t1; t2]) = Py.truthy s.
Proof.
  intros Hsep. destruct s as [|c s]; [reflexivity|].
  cbn [Py.partition]. destruct (Py.startswith (c :: s) sep).
  - destruct sep; [congruence|]. reflexivity.
  - destruct (Py.partition sep s) as [[hd mid] tl]. reflexivity.
Qed.

Lemma split_rounds_nonempty n sep s : Py.split_rounds n sep s <> [].
Proof.
  destruct n; cbn; [discriminate|].
  destruct (Py.partition sep s) as [[hd [|m mid]] tl]; discriminate.
Qed.

Lemma join_cons sep x parts :
  parts <> [] -> Py.join sep (x :: parts) = x ++ sep ++ Py.join sep parts.
Proof. destruct parts; [congruence|reflexivity]. Qed.

Lemma split_rounds_join sep n s :
  sep <> [] -> (length s <= n)%nat -> Py.join sep (Py.split_rounds n sep s) = s.
Proof.
  intros Hsep. revert s. induction n as [|n IH]; intros s Hn.
  - reflexivity.
  - cbn [Py.split_rounds].
    destruct (partition_cases sep s Hsep) as [(hd & tl & -> & Hs)| ->];
      [|reflexivity].
    destruct sep as [|p sep]; [congruence|].
    rewrite join_cons by apply split_rounds_nonempty.
    rewrite IH; [congruence|].
    rewrite Hs in Hn. rewrite !length_app in Hn. cbn in Hn. lia.
Qed.

(** Joining the pieces of [split] with the separator gives the text back. *)
Lemma split_join sep s : sep <> [] -> Py.join sep (Py.split sep s) = s.
Proof. intros Hsep. apply split_rounds_join; [exact Hsep|reflexivity]. Qed.

(** *** The tokenizer *)

Lemma for_pure {A} (body : A -> Eff (state W) unit) (f : A -> list action) xs :
  (forall x st, (body x st).1.2 = f x /\ (body x st).2 = Ok tt) ->
  forall st, (for_ xs body st).1.2 = concat (f <$> xs) /\ (for_ xs body st).2 = Ok tt.
Proof.
  intros Hb. induction xs as [|x xs IH]; intros st; [split; reflexivity|].
  cbn [for_]. unfold bind.
  destruct (Hb x st) as [Ha Hr].
  destruct (body x st) as [[s1 a1] r1]. cbn in Ha, Hr. subst a1 r1.
  destruct (IH s1) as [Ha' Hr'].
  destruct (for_ xs body s1) as [[s2 a2] r2]. cbn in *. subst. split; reflexivity.
Qed.

Lemma process_line_marked st line :
  Py.contains (u "^^") line = true ->
  acts_of (process_line line) st
  = iii_event line <$> omap segment_event (Py.split (u "^^") line) /\
  outcome (process_line line) st = Ok tt.
Proof.
  intros Hm. unfold acts_of, outcome, process_line. rewrite Hm.
  set (f := fun cmd => match segment_event cmd with
                       | Some ev => [iii_event line ev]
                       | None => []
                       end).
  match goal with |- context [for_ ?xs ?b] =>
    assert (Hbody : forall x st, (b x st).1.2 = f x /\ (b x st).2 = Ok tt);
    [|destruct (for_pure b f xs Hbody st) as [Ha Hr]]
  end.
  - cbv beta. intros cmd st0. unfold f, segment_event.
    pose proof (partition_any (u "(") (Py.rstrip cmd) ltac:(discriminate)) as Hany.
    destruct (Py.partition (u "(") (Py.rstrip cmd)) as [[t0 t1] t2].
    rewrite Hany. destruct (Py.truthy (Py.rstrip cmd)); cbn [negb].
    + rewrite raise_event_run. split; reflexivity.
    + split; reflexivity.
  - rewrite Ha, Hr. split; [|reflexivity].
    clear. induction (Py.split (u "^^") line) as [|cmd cmds IH]; [reflexivity|].
    cbn [fmap list_fmap omap list_omap concat]. rewrite IH. unfold f.
    destruct (segment_event cmd); reflexivity.
Qed.

Lemma process_line_unmarked st line :
  Py.contains (u "^^") line = false ->
  acts_of (process_line line) st
  = (if Py.truthy line then [Raised (u "iii_output") [VStr line]] else []) /\
  outcome (process_line line) st = Ok tt.
Proof.
  intros Hm. unfold acts_of, outcome, process_line. rewrite Hm.
  destruct (Py.truthy line); [rewrite raise_event_run|]; split; reflexivity.
Qed.

Lemma startswith_prefix s s' sep :
  Py.startswith s sep = true -> Py.startswith (s ++ s') sep = true.
Proof.
  revert s. induction sep as [|p sep IH]; intros s H;
    [destruct s; [destruct s'|]; reflexivity|].
  destruct s as [|c s]; [discriminate|]. cbn in *.
  apply andb_true_iff in H as [-> Hs]. cbn. apply IH, Hs.
Qed.

(** The cut of [partition] is at the first occurrence: [sep] does not
    occur in what precedes the cut. *)
Lemma partition_first sep s hd mid tl :
  sep <> [] -> Py.partition sep s = (hd, mid, tl) -> Py.contains sep hd = false.
Proof.
  intros Hsep. revert hd mid tl. induction s as [|c s IH]; intros hd mid tl Hp.
  - injection Hp as <- _ _. destruct sep; [congruence|reflexivity].
  - cbn [Py.partition] in Hp. destruct (Py.startswith (c :: s) sep) eqn:Hst.
    + injection Hp as <- _ _. destruct sep; [congruence|reflexivity].
    + destruct (Py.partition sep s) as [[hd' mid'] tl'] eqn:Hps.
      injection Hp as <- _ _. cbn [Py.contains].
      rewrite (IH hd' mid' tl' eq_refl), orb_false_r.
      destruct (Py.startswith (c :: hd') sep) eqn:Hst'; [|reflexivity].
      destruct (partition_cases sep s Hsep) as [(h & t & Hp' & Hs)|Hp'];
        rewrite Hps in Hp'; injection Hp' as -> ? ?; subst.
      * rewrite <- Hst. symmetry.
        apply (startswith_prefix (c :: h) (sep ++ t) sep Hst').
      * congruence.
Qed.

(** What [segment_event] gives, in terms of the text of the segment. *)
Lemma segment_event_cases cmd :
  match segment_event cmd with
  | None => Py.rstrip cmd = []
  | Some (name, args) =>
      Py.contains (u "(") name = false /\ args <> [] /\
      ((Py.rstrip cmd = name /\ name <> [] /\ args = [[]]) \/
       (exists rest, Py.rstrip cmd = name ++ u "(" ++ rest /\
                     Py.join (u ",") args = Py.rstrip_chars (u ")") rest))
  end.
Proof.
  unfold segment_event. destruct (Py.rstrip cmd) as [|c s] eqn:Hr; [reflexivity|].
  cbn [Py.truthy].
  pose proof (partition_first (u "(") (c :: s)) as Hfirst.
  destruct (partition_cases (u "(") (c :: s) ltac:(discriminate))
    as [(hd & tl & Hp & Hs)|Hp]; rewrite Hp; cbn [fst snd].
  - split; [apply (Hfirst _ _ _ ltac:(discriminate) Hp)|].
    split; [apply split_rounds_nonempty|].
    right. exists tl. split; [exact Hs|]. apply split_join. discriminate.
  - split; [apply (Hfirst _ _ _ ltac:(discriminate) Hp)|].
    split; [discriminate|]. left. repeat split. discriminate.
Qed.

(** C2, as the code has it. A received line that contains the marker is
    cut at the markers (joining the segments with the marker gives the
    line back). Every segment that is not empty once its trailing
    whitespace is removed gives one structured event, in order, carrying
    the whole line; the other segments give nothing. The name is what
    precedes the first open-parenthesis of the right-stripped segment, as
    it stands (whitespace before the parenthesis or at the start is kept);
    the arguments are what follows that parenthesis, without all the
    close-parentheses at its end, cut at the commas; a segment without
    parenthesis has the one argument ''. So 'foo(1,2)^^bar(3)' gives
    ('foo', ['1','2']) then ('bar', ['3']), and '^^clear()' gives
    ('clear', ['']) alone. *)
Theorem process_line_tokenizes st line :
  Py.contains (u "^^") line = true ->
  outcome (process_line line) st = Ok tt /\
  acts_of (process_line line) st
  = iii_event line <$> omap segment_event (Py.split (u "^^") line) /\
  Py.join (u "^^") (Py.split (u "^^") line) = line /\
  (forall cmd,
      match segment_event cmd with
      | None => Py.rstrip cmd = []
      | Some (name, args) =>
          Py.contains (u "(") name = false /\ args <> [] /\
          ((Py.rstrip cmd = name /\ name <> [] /\ args = [[]]) \/
           (exists rest, Py.rstrip cmd = name ++ u "(" ++ rest /\
                         Py.join (u ",") args = Py.rstrip_chars (u ")") rest))
      end) /\
  acts_of (process_line (u "foo(1,2)^^bar(3)")) st
  = [iii_event (u "foo(1,2)^^bar(3)") (u "foo", [u "1"; u "2"]);
     iii_event (u "foo(1,2)^^bar(3)") (u "bar", [u "3"])] /\
  acts_of (process_line (u "^^clear()")) st
  = [iii_event (u "^^clear()") (u "clear", [u ""])].
Proof.
  intros Hm. destruct (process_line_marked st line Hm) as [Ha Hr].
  split; [exact Hr|]. split; [exact Ha|].
  split; [apply split_join; discriminate|].
  split; [exact segment_event_cases|].
  split.
  - rewrite (proj1 (process_line_marked st (u "foo(1,2)^^bar(3)") eq_refl)).
    reflexivity.
  - rewrite (proj1 (process_line_marked st (u "^^clear()") eq_refl)).
    reflexivity.
Qed.

(** C10. Every structured event that the tokenizer raises for a line has
    the line, a name and an argument list that is not empty; a segment
    that is a bare name, or a name with empty parentheses, has the one
    argument ''. *)
Theorem process_line_args_nonempty st line :
  Forall (fun ev : str * list pyval =>
            ev.1 = u "iii_event" ->
            exists name args,
              ev.2 = [VStr line; VStr name; VList args] /\ (1 <= length args)%nat)
         (raised (acts_of (process_line line) st)) /\
  acts_of (process_line (u "^^foo")) st = [iii_event (u "^^foo") (u "foo", [u ""])] /\
  acts_of (process_line (u "^^foo()")) st = [iii_event (u "^^foo()") (u "foo", [u ""])].
Proof.
  split; [|split].
  - destruct (Py.contains (u "^^") line) eqn:Hm.
    + rewrite (proj1 (process_line_marked st line Hm)).
      induction (Py.split (u "^^") line) as [|cmd cmds IH]; [constructor|].
      cbn [omap list_omap]. pose proof (segment_event_cases cmd) as Hc.
      destruct (segment_event cmd) as [[name args]|]; [|exact IH].
      cbn. constructor; [|exact IH].
      intros _. exists name, args. split; [reflexivity|].
      destruct Hc as (_ & Hne & _). destruct args; [congruence|cbn; lia].
    + rewrite (proj1 (process_line_unmarked st line Hm)).
      destruct (Py.truthy line); cbn; constructor; [|constructor].
      cbn. intros H. discriminate H.
  - rewrite (proj1 (process_line_marked st (u "^^foo") eq_refl)). reflexivity.
  - rewrite (proj1 (process_line_marked st (u "^^foo()") eq_refl)). reflexivity.
Qed.

(** *** Upload and execute *)

Lemma writeline_connected st line b :
  connected st -> Py.encode line = Some b ->
  exists st',
    writeline line st = (st', [Sent (wire b)], Ok tt) /\
    connected st' /\ outbound st' = outbound st ++ [wire b] /\
    files st' = files st.
Proof.
  intros (br & Hs & Ho) He. unfold writeline.
  rewrite (write_open st br _ _ Hs Ho (encode_app _ _ _ _ He encode_crlf)).
  eexists. split; [reflexivity|]. unfold outbound. rewrite Hs. cbn.
  split; [|split; reflexivity].
  eexists. split; [reflexivity|]. exact Ho.
Qed.

Lemma open_found st fname text :
  files st !! fname = Some text -> open_ fname st = (st, [], Ok text).
Proof. intros Hf. unfold open_, bind, gets, lift_opt. rewrite Hf. reflexivity. Qed.

Lemma open_missing st fname :
  files st !! fname = None ->
  open_ fname st = (st, [], Raise (FileNotFoundError fname)).
Proof. intros Hf. unfold open_, bind, gets, lift_opt. rewrite Hf. reflexivity. Qed.

Lemma writefile_loop lines bodies st :
  connected st ->
  Forall2 (fun line b => Py.encode (Py.rstrip line) = Some b) lines bodies ->
  exists st',
    for_ lines (fun line => writeline (Py.rstrip line) ;;; sleep 1) st
    = (st', concat ((fun b => [Sent (wire b); Slept 1]) <$> bodies), Ok tt) /\
    connected st' /\ outbound st' = outbound st ++ (wire <$> bodies) /\
    files st' = files st.
Proof.
  intros Hc HF. revert st Hc.
  induction HF as [|line b lines bodies He HF IH]; intros st Hc.
  - exists st. cbn. rewrite app_nil_r. repeat split; assumption.
  - destruct (writeline_connected st _ b Hc He) as (st1 & Hw & Hc1 & Ho1 & Hf1).
    destruct (IH st1 Hc1) as (st2 & Hl & Hc2 & Ho2 & Hf2).
    exists st2. cbn [for_]. unfold bind at 1. unfold bind at 1.
    rewrite Hw. unfold sleep at 1, tell. rewrite Hl.
    split; [reflexivity|]. split; [exact Hc2|]. split.
    + rewrite Ho2, Ho1, <- app_assoc. reflexivity.
    + congruence.
Qed.

Lemma writefile_connected fname text bodies st :
  connected st -> files st !! fname = Some text ->
  mapM (fun line => Py.encode (Py.rstrip line)) (Py.readlines text) = Some bodies ->
  exists st',
    writefile fname st
    = (st', concat ((fun b => [Sent (wire b); Slept 1]) <$> bodies), Ok tt) /\
    connected st' /\ outbound st' = outbound st ++ (wire <$> bodies) /\
    files st' = files st.
Proof.
  intros Hc Hf Hm. apply mapM_Some in Hm.
  destruct (writefile_loop _ _ (set_log (log st ++ [InfoOpenedFile fname]) st)
              Hc Hm) as (st' & Hl & Hc' & Ho' & Hf').
  exists st'. split; [|repeat split; assumption].
  unfold writefile. unfold bind at 1. rewrite (open_found st fname text Hf).
  cbv beta iota. unfold bind at 1. unfold logger at 1, modify.
  rewrite Hl. reflexivity.
Qed.

Lemma raise_event_connected event args st :
  connected st ->
  exists st',
    raise_event event args st = (st', [Raised event args], Ok tt) /\
    connected st' /\ outbound st' = outbound st /\ files st' = files st.
Proof.
  intros Hc. rewrite raise_event_run. eexists. split; [reflexivity|].
  repeat split. exact Hc.
Qed.

Lemma upload_connected fname event end_ mode text bodies st :
  connected st -> files st !! fname = Some text ->
  mapM (fun line => Py.encode (Py.rstrip line)) (Py.readlines text) = Some bodies ->
  Py.encode end_ = Some mode ->
  outcome (_upload fname event end_) st = Ok tt /\
  acts_of (_upload fname event end_) st
  = Raised event [VStr fname] :: Sent (wire (b8 "^^s")) :: Slept 100
    :: concat ((fun b => [Sent (wire b); Slept 1]) <$> bodies)
    ++ [Slept 100; Sent (wire mode); Slept 100; Sent (wire (b8 "^^z"))] /\
  outbound (after (_upload fname event end_) st)
  = outbound st ++ wire (b8 "^^s") :: (wire <$> bodies)
      ++ [wire mode; wire (b8 "^^z")].
Proof.
  intros Hc Hf Hm He.
  destruct (raise_event_connected event [VStr fname] st Hc)
    as (st1 & H1 & Hc1 & Ho1 & Hf1).
  destruct (writeline_connected st1 (u "^^s") (b8 "^^s") Hc1 eq_refl)
    as (st2 & H2 & Hc2 & Ho2 & Hf2).
  assert (Hf' : files st2 !! fname = Some text) by congruence.
  destruct (writefile_connected fname text bodies st2 Hc2 Hf' Hm)
    as (st3 & H3 & Hc3 & Ho3 & Hf3).
  destruct (writeline_connected st3 end_ _ Hc3 He)
    as (st4 & H4 & Hc4 & Ho4 & Hf4).
  destruct (writeline_connected st4 (u "^^z") (b8 "^^z") Hc4 eq_refl)
    as (st5 & H5 & Hc5 & Ho5 & Hf5).
  unfold outcome, acts_of, after, _upload, bind, sleep, tell.
  rewrite H1, H2, H3, H4, H5. cbn [fst snd].
  split; [reflexivity|]. split.
  - cbn [app]. reflexivity.
  - rewrite Ho5, Ho4, Ho3, Ho2, Ho1. rewrite <- !app_assoc. reflexivity.
Qed.

(** C1, as the code has it. On a link whose bridge is open, for a file
    that exists and whose lines encode to UTF-8, [upload] raises
    'uploading' with the path and then puts on the outbound queue, one
    chunk each and in this order: ^^s, every line of the file without its
    trailing whitespace, ^^w, ^^z. Each chunk is the UTF-8 text followed
    by CR LF and, when that makes a multiple of 64 bytes, by one more line
    feed (the three markers never get it). It sleeps 100 ms after ^^s,
    1 ms after each line, and 100 ms before and after the mode marker.
    [execute] does the same with 'running' and ^^e. *)
Theorem upload_execute_frames st fname text bodies :
  connected st -> files st !! fname = Some text ->
  mapM (fun line => Py.encode (Py.rstrip line)) (Py.readlines text) = Some bodies ->
  (outcome (upload fname) st = Ok tt /\
   acts_of (upload fname) st
   = Raised (u "uploading") [VStr fname] :: Sent (b8 "^^s" ++ CRLF) :: Slept 100
     :: concat ((fun b => [Sent ((b ++ CRLF) ++ padding (b ++ CRLF)); Slept 1])
                  <$> bodies)
     ++ [Slept 100; Sent (b8 "^^w" ++ CRLF); Slept 100; Sent (b8 "^^z" ++ CRLF)] /\
   outbound (after (upload fname) st)
   = outbound st ++ (b8 "^^s" ++ CRLF) :: (wire <$> bodies)
       ++ [b8 "^^w" ++ CRLF; b8 "^^z" ++ CRLF]) /\
  (outcome (execute fname) st = Ok tt /\
   acts_of (execute fname) st
   = Raised (u "running") [VStr fname] :: Sent (b8 "^^s" ++ CRLF) :: Slept 100
     :: concat ((fun b => [Sent ((b ++ CRLF) ++ padding (b ++ CRLF)); Slept 1])
                  <$> bodies)
     ++ [Slept 100; Sent (b8 "^^e" ++ CRLF); Slept 100; Sent (b8 "^^z" ++ CRLF)] /\
   outbound (after (execute fname) st)
   = outbound st ++ (b8 "^^s" ++ CRLF) :: (wire <$> bodies)
       ++ [b8 "^^e" ++ CRLF; b8 "^^z" ++ CRLF]).
Proof.
  intros Hc Hf Hm. split.
  - exact (upload_connected fname (u "uploading") (u "^^w") (b8 "^^w")
             text bodies st Hc Hf Hm eq_refl).
  - exact (upload_connected fname (u "running") (u "^^e") (b8 "^^e")
             text bodies st Hc Hf Hm eq_refl).
Qed.

Lemma writeline_closed st br line b :
  serial st = Some br -> WebSocketSerialThreaded._is_open br = false ->
  Py.encode line = Some b ->
  writeline line st
  = (set_serial (Some br) (set_log (log st ++ [DebugTx (wire b)]) st), [],
     Raise WebSocketSerialThreaded.not_open).
Proof.
  intros Hs Ho He. unfold writeline, write, lift_opt.
  rewrite (encode_app _ _ _ _ He encode_crlf).
  unfold bind at 1. unfold ret at 1. cbv beta iota.
  unfold writebin, bind at 1, gets at 1.
  rewrite Hs.
  assert (Hb : (if (length (b ++ CRLF) mod 64 =? 0)%nat
                then (b ++ CRLF) ++ [x0a] else b ++ CRLF) = wire b).
  { unfold wire, padding. destruct (length (b ++ CRLF) mod 64 =? 0)%nat;
      [reflexivity|]. rewrite app_nil_r. reflexivity. }
  rewrite Hb.
  unfold bind, logger, modify, on_serial, WebSocketSerialThreaded.write, gets; cbn.
  rewrite Hs, Ho. reflexivity.
Qed.

Lemma upload_closed_run fname event end_ st br :
  serial st = Some br -> WebSocketSerialThreaded._is_open br = false ->
  exists st',
    _upload fname event end_ st
    = (st', [Raised event [VStr fname]], Raise WebSocketSerialThreaded.not_open) /\
    outbound st' = outbound st.
Proof.
  intros Hs Ho. unfold _upload.
  rewrite bind_run, raise_event_run. cbv beta iota.
  set (st1 := set_log _ _).
  assert (Hs1 : serial st1 = Some br) by exact Hs.
  rewrite bind_run, (writeline_closed st1 br (u "^^s") (b8 "^^s") Hs1 Ho eq_refl).
  eexists. split; [reflexivity|]. unfold outbound. cbn. rewrite Hs. reflexivity.
Qed.

Lemma writeline_unbridged st line b :
  serial st = None -> Py.encode line = Some b ->
  writeline line st = (st, [], Ok tt).
Proof.
  intros Hs He. unfold writeline, write, lift_opt.
  rewrite (encode_app _ _ _ _ He encode_crlf).
  unfold bind at 1. unfold ret at 1. cbv beta iota.
  unfold writebin, bind, gets. rewrite Hs. reflexivity.
Qed.

Lemma upload_missing_run fname event end_ st st1 st2 a2 :
  raise_event event [VStr fname] st = (st1, [Raised event [VStr fname]], Ok tt) ->
  writeline (u "^^s") st1 = (st2, a2, Ok tt) ->
  files st2 !! fname = None ->
  _upload fname event end_ st
  = (st2, [Raised event [VStr fname]] ++ a2 ++ [Slept 100],
     Raise (FileNotFoundError fname)).
Proof.
  intros H1 H2 Hf. unfold _upload.
  rewrite bind_run, H1. cbv beta iota. rewrite bind_run, H2. cbv beta iota.
  rewrite bind_run. unfold sleep at 1, tell at 1. cbv beta iota.
  rewrite bind_run. unfold writefile at 1. rewrite bind_run.
  rewrite (open_missing st2 fname Hf). rewrite app_nil_r. reflexivity.
Qed.

(** C5, as the code has it. For a path that names no file, [upload] fails,
    and where it fails depends on the bridge. On a link whose bridge is
    open, and on a link that holds no bridge, it fails with
    FileNotFoundError, raised when [writefile] opens the file, that is
    after the progress event and after the start marker: with an open
    bridge the chunk ^^s CR LF is on the outbound queue by then, and
    nothing else is (no line of payload, no ^^w, no ^^z); with no bridge
    nothing is written. On a link whose bridge is held but not open it
    fails earlier, at the start marker, with the bridge's SerialException
    'Port is not open': the file is never looked at and nothing is
    written. *)
Theorem upload_missing_file st fname :
  files st !! fname = None ->
  (connected st ->
   outcome (upload fname) st = Raise (FileNotFoundError fname) /\
   acts_of (upload fname) st
   = [Raised (u "uploading") [VStr fname]; Sent (b8 "^^s" ++ CRLF); Slept 100] /\
   outbound (after (upload fname) st) = outbound st ++ [b8 "^^s" ++ CRLF]) /\
  (serial st = None ->
   outcome (upload fname) st = Raise (FileNotFoundError fname) /\
   acts_of (upload fname) st = [Raised (u "uploading") [VStr fname]; Slept 100] /\
   outbound (after (upload fname) st) = []) /\
  (forall br,
     serial st = Some br -> WebSocketSerialThreaded._is_open br = false ->
     outcome (upload fname) st = Raise WebSocketSerialThreaded.not_open /\
     acts_of (upload fname) st = [Raised (u "uploading") [VStr fname]] /\
     outbound (after (upload fname) st) = outbound st).
Proof.
  intros Hf. split; [|split].
  - intros Hc.
    destruct (raise_event_connected (u "uploading") [VStr fname] st Hc)
      as (st1 & H1 & Hc1 & Ho1 & Hf1).
    destruct (writeline_connected st1 (u "^^s") (b8 "^^s") Hc1 eq_refl)
      as (st2 & H2 & Hc2 & Ho2 & Hf2).
    assert (Hf' : files st2 !! fname = None) by congruence.
    unfold outcome, acts_of, after, upload.
    rewrite (upload_missing_run fname _ _ st st1 st2 _ H1 H2 Hf').
    cbn [fst snd app]. rewrite Ho2, Ho1. repeat split.
  - intros Hs.
    pose proof (raise_event_run (u "uploading") [VStr fname] st) as H1.
    set (st1 := set_log _ _) in H1.
    assert (Hs1 : serial st1 = None) by exact Hs.
    assert (Hf1 : files st1 !! fname = None) by exact Hf.
    unfold outcome, acts_of, after, upload.
    rewrite (upload_missing_run fname _ _ st st1 st1 _ H1
               (writeline_unbridged st1 (u "^^s") (b8 "^^s") Hs1 eq_refl) Hf1).
    cbn [fst snd app]. unfold outbound. rewrite Hs1. repeat split.
  - intros br Hs Ho.
    destruct (upload_closed_run fname (u "uploading") (u "^^w") st br Hs Ho)
      as (st' & Hr & Hq).
    unfold outcome, acts_of, after, upload. rewrite Hr. repeat split. exact Hq.
Qed.

(** *** Writing without an open bridge *)

(** C8, as the code has it. What decides is the bridge, not
    [is_connected]. On a link that holds a bridge which is not open,
    [write], [writeline], [upload] and [execute] fail with the bridge's
    SerialException 'Port is not open' and put nothing on the outbound
    queue ([upload] and [execute] have raised their progress event by
    then). On a link that holds no bridge, [write] and [writeline] return
    normally, put nothing anywhere and leave the link as it was: the text
    is dropped without an error. *)
Theorem transmit_without_open_bridge st br :
  serial st = Some br -> WebSocketSerialThreaded._is_open br = false ->
  (forall s b, Py.encode s = Some b ->
     (outcome (write s) st = Raise WebSocketSerialThreaded.not_open /\
      acts_of (write s) st = [] /\
      outbound (after (write s) st) = outbound st) /\
     (outcome (writeline s) st = Raise WebSocketSerialThreaded.not_open /\
      acts_of (writeline s) st = [] /\
      outbound (after (writeline s) st) = outbound st)) /\
  (forall fname,
     (outcome (upload fname) st = Raise WebSocketSerialThreaded.not_open /\
      acts_of (upload fname) st = [Raised (u "uploading") [VStr fname]] /\
      outbound (after (upload fname) st) = outbound st) /\
     (outcome (execute fname) st = Raise WebSocketSerialThreaded.not_open /\
      acts_of (execute fname) st = [Raised (u "running") [VStr fname]] /\
      outbound (after (execute fname) st) = outbound st)) /\
  (forall (st0 : state W) s b,
     serial st0 = None -> Py.encode s = Some b ->
     (outcome (write s) st0 = Ok tt /\ acts_of (write s) st0 = [] /\
      after (write s) st0 = st0) /\
     (outcome (writeline s) st0 = Ok tt /\ acts_of (writeline s) st0 = [] /\
      after (writeline s) st0 = st0)).
Proof.
  intros Hs Ho. split; [|split].
  - intros s b He. split.
    + unfold outcome, acts_of, after, write, lift_opt. rewrite He.
      rewrite bind_run. unfold ret at 1 2 3. cbv beta iota.
      unfold writebin. rewrite bind_run. unfold gets at 1 2 3. cbv beta iota.
      rewrite Hs. unfold bind, logger, modify, on_serial,
        WebSocketSerialThreaded.write, gets; cbn.
      rewrite Hs, Ho. unfold outbound. cbn. rewrite Hs. repeat split.
    + unfold outcome, acts_of, after.
      rewrite (writeline_closed st br s b Hs Ho He).
      unfold outbound. cbn. rewrite Hs. repeat split.
  - intros fname. split.
    + destruct (upload_closed_run fname (u "uploading") (u "^^w") st br Hs Ho)
        as (st' & Hr & Hq).
      unfold outcome, acts_of, after, upload. rewrite Hr. repeat split. exact Hq.
    + destruct (upload_closed_run fname (u "running") (u "^^e") st br Hs Ho)
        as (st' & Hr & Hq).
      unfold outcome, acts_of, after, execute. rewrite Hr. repeat split. exact Hq.
  - intros st0 s b Hs0 He. split.
    + unfold outcome, acts_of, after, write, lift_opt. rewrite He.
      rewrite bind_run. unfold ret at 1 2 3. cbv beta iota.
      unfold writebin, bind, gets. rewrite Hs0. repeat split.
    + unfold outcome, acts_of, after.
      rewrite (writeline_unbridged st0 s b Hs0 He). repeat split.
Qed.

(** *** The background pump *)

Lemma read_frame n st :
  acts_of (read n) st = [] /\
  net (after (read n) st) = net st /\
  is_connected (after (read n) st) = is_connected st /\
  event_handlers (after (read n) st) = event_handlers st /\
  user (after (read n) st) = user st.
Proof.
  unfold acts_of, after, read, readbin, bind, gets, lift_opt, on_serial,
    WebSocketSerialThreaded.read, logger, modify, raise, ret.
  destruct st as [[br|] c hs w fs nt lg]; cbn.
  - destruct (WebSocketSerialThreaded._is_open br); cbn; [|repeat split].
    destruct (WebSocketSerialThreaded.read_loop n [] br) as [data br'].
    destruct (Py.truthy data), (Py.decode data); cbn; repeat split.
  - repeat split.
Qed.

Lemma reconnect_established err_event st rest :
  net st = true :: rest ->
  outcome (reconnect err_event) st = Ok tt /\
  acts_of (reconnect err_event) st = [Slept 100; Raised (u "connect") []] /\
  is_connected (after (reconnect err_event) st) = true /\
  connected (after (reconnect err_event) st) /\
  (exists l, log (after (reconnect err_event) st) = log st ++ l).
Proof.
  intros Hn.
  unfold outcome, acts_of, after, reconnect, try_except, connect, bind,
    modify, attempt, gets, on_serial, logger.
  cbn -[raise_event]. rewrite Hn. cbn -[raise_event].
  rewrite raise_event_run. cbn.
  repeat split.
  - eexists. split; reflexivity.
  - eexists. rewrite <- app_assoc. reflexivity.
Qed.

Lemma reconnect_refused err_event st :
  head (net st) <> Some true ->
  outcome (reconnect err_event) st = Ok tt /\
  acts_of (reconnect err_event) st
  = Slept 100 ::
    (if is_connected st || err_event
     then [Raised (u "connect_err") [VExn open_failed]] else []) /\
  is_connected (after (reconnect err_event) st) = false /\
  ~ connected (after (reconnect err_event) st) /\
  (exists l, log (after (reconnect err_event) st) = log st ++ l).
Proof.
  intros Hn.
  unfold outcome, acts_of, after, reconnect, try_except, connect, bind,
    modify, attempt, gets, on_serial, logger.
  cbn -[raise_event].
  destruct (net st) as [|[|] rest] eqn:Hnet; [|cbn in Hn; congruence|];
    cbn -[raise_event];
    (destruct (is_connected st) eqn:Hc; cbn -[raise_event];
     [|destruct err_event; cbn -[raise_event]]);
    rewrite ?raise_event_run; cbn; rewrite ?Hc;
    (split; [reflexivity|]; split; [reflexivity|]; split; [reflexivity|]; split;
     [intros (br & Hs & Ho); cbn in Hs; injection Hs as <-; discriminate Ho
     |eexists; try reflexivity; symmetry; apply app_nil_r]).
Qed.

(** One turn of the pump, by the outcome of its read. *)
Lemma read_forever_body_run st :
  read_forever_body st
  = match read (100 * 100) st with
    | (s1, a1, Ok _) => (s1, a1 ++ [Slept 1], Ok tt)
    | (s1, a1, Raise exc) =>
        let s2 := if is_connected s1
                  then set_log (log s1 ++ [ErrorLostConnection exc]) s1
                  else s1 in
        match reconnect false s2 with
        | (s3, a3, Ok _) => (s3, a1 ++ a3 ++ [Slept 100], Ok tt)
        | (s3, a3, Raise e) => (s3, a1 ++ a3, Raise e)
        end
    end.
Proof.
  unfold read_forever_body, bind, try_except, gets, sleep, tell, ret, logger, modify.
  destruct (read (100 * 100) st) as [[s1 a1] [r|exc]]; cbn -[reconnect Nat.mul].
  - rewrite app_nil_r. reflexivity.
  - destruct (is_connected s1); cbn -[reconnect Nat.mul];
      destruct (reconnect false _) as [[s3 a3] [[]|e]]; cbn;
      rewrite ?app_nil_r, <- ?app_assoc; reflexivity.
Qed.

(** C3, as the code has it. When the read of a turn of the pump fails
    while [is_connected] holds, the pump logs the lost connection and
    calls [reconnect] at once; no 'disconnect' event is raised. When the
    new connection is established, 'connect' is raised and [is_connected]
    stays true; when it is not, [is_connected] becomes false and
    'connect_err' is raised with the error of [open]. The turn ends with a
    sleep of 100 ms and never fails. *)
Theorem pump_read_failure st exc :
  outcome (read (100 * 100)) st = Raise exc -> is_connected st = true ->
  outcome read_forever_body st = Ok tt /\
  (forall args, Raised (u "disconnect") args ∉ acts_of read_forever_body st) /\
  ErrorLostConnection exc ∈ log (after read_forever_body st) /\
  (head (net st) = Some true ->
   acts_of read_forever_body st = [Slept 100; Raised (u "connect") []; Slept 100] /\
   is_connected (after read_forever_body st) = true) /\
  (head (net st) <> Some true ->
   acts_of read_forever_body st
   = [Slept 100; Raised (u "connect_err") [VExn open_failed]; Slept 100] /\
   is_connected (after read_forever_body st) = false).
Proof.
  intros Hr Hc. unfold outcome, acts_of, after in *.
  rewrite read_forever_body_run.
  destruct (read_frame (100 * 100) st) as (Ha & Hn & Hc1 & _).
  unfold acts_of, after in Ha, Hn, Hc1.
  destruct (read (100 * 100) st) as [[s1 a1] r1]. cbn [fst snd] in *.
  subst a1 r1. rewrite Hc1, Hc. cbv zeta.
  set (s2 := set_log (log s1 ++ [ErrorLostConnection exc]) s1).
  assert (Hn2 : net s2 = net st) by exact Hn.
  assert (Hc2 : is_connected s2 = true) by (cbn; congruence).
  assert (Hl2 : ErrorLostConnection exc ∈ log s2).
  { cbn. apply elem_of_app. right. apply list_elem_of_singleton. reflexivity. }
  destruct (head (net st)) as [[|]|] eqn:Hh.
  - destruct (net s2) as [|o rest] eqn:Hns; rewrite <- Hn2 in Hh; [discriminate|].
    cbn in Hh. injection Hh as ->.
    destruct (reconnect_established false s2 rest Hns) as (Ho & Hacts & Hic & _ & l & Hl).
    unfold outcome, acts_of, after in Ho, Hacts, Hic, Hl.
    destruct (reconnect false s2) as [[s3 a3] r3]. cbn [fst snd] in *. subst a3 r3.
    cbn [fst snd app]. split; [reflexivity|]. split.
    { intros args Hin. repeat (apply elem_of_cons in Hin as [Hin|Hin]; [discriminate Hin|]).
      inversion Hin. }
    split; [rewrite Hl; apply elem_of_app; left; exact Hl2|].
    split; [intros _; split; [reflexivity|exact Hic]|]. intros Hx. congruence.
  - assert (Hns : head (net s2) <> Some true) by (rewrite Hn2, Hh; discriminate).
    destruct (reconnect_refused false s2 Hns) as (Ho & Hacts & Hic & _ & l & Hl).
    unfold outcome, acts_of, after in Ho, Hacts, Hic, Hl.
    destruct (reconnect false s2) as [[s3 a3] r3]. cbn [fst snd] in *. subst a3 r3.
    rewrite Hc2. cbn [fst snd app orb]. split; [reflexivity|]. split.
    { intros args Hin. repeat (apply elem_of_cons in Hin as [Hin|Hin]; [discriminate Hin|]).
      inversion Hin. }
    split; [rewrite Hl; apply elem_of_app; left; exact Hl2|].
    split; [intros Hx; discriminate Hx|]. intros _. split; [reflexivity|exact Hic].
  - assert (Hns : head (net s2) <> Some true) by (rewrite Hn2, Hh; discriminate).
    destruct (reconnect_refused false s2 Hns) as (Ho & Hacts & Hic & _ & l & Hl).
    unfold outcome, acts_of, after in Ho, Hacts, Hic, Hl.
    destruct (reconnect false s2) as [[s3 a3] r3]. cbn [fst snd] in *. subst a3 r3.
    rewrite Hc2. cbn [fst snd app orb]. split; [reflexivity|]. split.
    { intros args Hin. repeat (apply elem_of_cons in Hin as [Hin|Hin]; [discriminate Hin|]).
      inversion Hin. }
    split; [rewrite Hl; apply elem_of_app; left; exact Hl2|].
    split; [intros Hx; discriminate Hx|]. intros _. split; [reflexivity|exact Hic].
Qed.

(** A turn of the pump whose read succeeds does nothing with what was
    read: it only sleeps. *)
Lemma pump_ignores_data st r :
  outcome (read (100 * 100)) st = Ok r ->
  acts_of read_forever_body st = [Slept 1] /\
  after read_forever_body st = after (read (100 * 100)) st /\
  outcome read_forever_body st = Ok tt.
Proof.
  intros Hr. unfold outcome, acts_of, after in *. rewrite read_forever_body_run.
  destruct (read_frame (100 * 100) st) as (Ha & _). unfold acts_of in Ha.
  destruct (read (100 * 100) st) as [[s1 a1] r1]. cbn [fst snd] in *.
  subst a1 r1. repeat split.
Qed.

(** *** The bridge's read *)

(** The loop of [read] takes the first [size] chunks of the queue, whole. *)
Lemma read_loop_chunks size data (self : WebSocketSerialThreaded.t) :
  WebSocketSerialThreaded.read_loop size data self
  = (data ++ concat (take size (WebSocketSerialThreaded._read_queue self)),
     WebSocketSerialThreaded.set_read_queue
       (drop size (WebSocketSerialThreaded._read_queue self)) self).
Proof.
  revert data self. induction size as [|size IH]; intros data self.
  - cbn. rewrite app_nil_r. destruct self; reflexivity.
  - cbn [WebSocketSerialThreaded.read_loop]. unfold WebSocketSerialThreaded.get.
    destruct self as [ur tm o [|c q] wq th se]; cbn.
    + rewrite app_nil_r. reflexivity.
    + rewrite IH. cbn. rewrite <- app_assoc. reflexivity.
Qed.

(** On an open bridge [read] never fails and returns the first [size]
    chunks of the inbound queue, joined. *)
Lemma read_open size (self : WebSocketSerialThreaded.t) :
  WebSocketSerialThreaded._is_open self = true ->
  outcome (WebSocketSerialThreaded.read size) self
  = Ok (concat (take size (WebSocketSerialThreaded._read_queue self))) /\
  WebSocketSerialThreaded._read_queue (after (WebSocketSerialThreaded.read size) self)
  = drop size (WebSocketSerialThreaded._read_queue self).
Proof.
  intros Ho. unfold outcome, after, WebSocketSerialThreaded.read, bind, gets.
  rewrite Ho. cbn [negb]. rewrite read_loop_chunks. split; reflexivity.
Qed.

End Properties.

(** *** The defects, on concrete links *)

(** C4. The pump on a link whose bridge has received the line
    '^^clear()' and its terminator: the read of the turn returns that text,
    and the turn then does nothing with it. No event is raised, the chunk
    has left the inbound queue, the turn only sleeps. Fed to the tokenizer,
    the line would have raised the structured event 'clear'. *)
Theorem pump_discards_received :
  let st := receive [b8 "^^clear()" ++ [x0a; x0d]] (link_up ∅ []) in
  outcome (read (100 * 100)) st = Ok (u "^^clear()" ++ [LF; CR]) /\
  acts_of read_forever_body st = [Slept 1] /\
  raised (acts_of read_forever_body st) = [] /\
  inbound st = [b8 "^^clear()" ++ [x0a; x0d]] /\
  inbound (after read_forever_body st) = [] /\
  acts_of (for_ (Py.split [LF; CR] (u "^^clear()" ++ [LF; CR])) process_line) st
  = [iii_event (u "^^clear()") (u "clear", [u ""])].
Proof. vm_compute. repeat split. Qed.

(** C9. [read(1)] on an open bridge whose inbound queue holds the one chunk
    b'hello' returns the five bytes of the chunk; [read(2)] on a queue of
    three chunks returns the first two chunks, whatever their lengths. *)
Theorem read_returns_chunks :
  let br := WebSocketSerialThreaded.set_is_open true
              (WebSocketSerialThreaded.init (u "ws://localhost:8765") (Some 500)) in
  outcome (WebSocketSerialThreaded.read 1)
    (WebSocketSerialThreaded.set_read_queue [b8 "hello"] br) = Ok (b8 "hello") /\
  length (b8 "hello") = 5%nat /\
  outcome (WebSocketSerialThreaded.read 2)
    (WebSocketSerialThreaded.set_read_queue [b8 "abc"; b8 "de"; b8 "f"] br)
  = Ok (b8 "abcde") /\
  WebSocketSerialThreaded._read_queue
    (after (WebSocketSerialThreaded.read 2)
       (WebSocketSerialThreaded.set_read_queue [b8 "abc"; b8 "de"; b8 "f"] br))
  = [b8 "f"].
Proof. vm_compute. repeat split. Qed.

(** *** Where the specification's sentences fail *)

(** C1: a line of 62 characters goes out as 65 bytes, the terminator
    followed by a line feed. *)
Lemma upload_frames_counterexample :
  sent (acts_of (upload (u "f.lua")) (link_up line62 []))
  <> spec_upload_chunks [replicate 62 x61] (b8 "^^w").
Proof. vm_compute. intros H. discriminate H. Qed.

(** C2: the name of 'foo (1)' is 'foo ' with its space, not 'foo'. *)
Lemma process_line_counterexample :
  acts_of (process_line (u "^^foo (1)")) never_connected
  <> spec_tokenize (u "^^foo (1)").
Proof. vm_compute. intros H. discriminate H. Qed.

(** C3: the connection of a connected link is lost and the next attempt
    succeeds: the turn of the pump raises 'connect' only, and
    [is_connected] is still true after it. *)
Lemma pump_counterexample :
  let st := connection_lost (link_up ∅ [true]) in
  is_connected st = true /\
  outcome (read (100 * 100)) st = Raise WebSocketSerialThreaded.not_open /\
  ~ (exists args, (u "disconnect", args) ∈ raised (acts_of read_forever_body st)) /\
  is_connected (after read_forever_body st) <> false.
Proof.
  split; [reflexivity|]. split; [reflexivity|]. split.
  - intros [args H]. vm_compute in H.
    apply elem_of_cons in H as [H|H]; [discriminate H|inversion H].
  - vm_compute. intros H. discriminate H.
Qed.

(** C5: on a connected link the start marker has been written when the
    missing file is found missing. *)
Lemma upload_missing_counterexample :
  ~ (outcome (upload (u "missing.lua")) (link_up ∅ [])
     = Raise (FileNotFoundError (u "missing.lua")) /\
     sent (acts_of (upload (u "missing.lua")) (link_up ∅ [])) = []).
Proof. intros [_ H]. vm_compute in H. discriminate H. Qed.

(** C7: a string of 64 characters goes out as 65 bytes. *)
Lemma write_counterexample :
  Py.encode (replicate 64 97) = Some (replicate 64 x61) /\
  sent (acts_of (write (replicate 64 97)) (link_up ∅ [])) <> [replicate 64 x61].
Proof. split; [reflexivity|]. vm_compute. intros H. discriminate H. Qed.

(** C8: on a link that was never connected [write] returns normally and
    the text is gone. *)
Lemma write_unconnected_counterexample :
  is_connected never_connected = false /\
  outcome (write (u "x")) never_connected = Ok tt /\
  sent (acts_of (write (u "x")) never_connected) = [] /\
  outcome (write (u "x")) never_connected <> Raise WebSocketSerialThreaded.not_open.
Proof. vm_compute. repeat split. intros H. discriminate H. Qed.

(** *** The theorems at work on concrete links *)

Lemma upload_execute_frames_witness :
  connected (link_up two_lines []) /\
  sent (acts_of (upload (u "f.lua")) (link_up two_lines []))
  = [b8 "^^s" ++ CRLF; b8 "ab" ++ CRLF; b8 "cd" ++ CRLF;
     b8 "^^w" ++ CRLF; b8 "^^z" ++ CRLF] /\
  sent (acts_of (execute (u "f.lua")) (link_up two_lines []))
  = [b8 "^^s" ++ CRLF; b8 "ab" ++ CRLF; b8 "cd" ++ CRLF;
     b8 "^^e" ++ CRLF; b8 "^^z" ++ CRLF].
Proof.
  assert (Hc : connected (link_up two_lines [])).
  { eexists. split; reflexivity. }
  split; [exact Hc|].
  destruct (upload_execute_frames (link_up two_lines []) (u "f.lua")
              (u "ab  " ++ [LF] ++ u "cd") [b8 "ab"; b8 "cd"] Hc eq_refl eq_refl)
    as [(_ & Hu & _) (_ & He & _)].
  rewrite Hu, He. split; reflexivity.
Defined.

Lemma process_line_tokenizes_witness :
  Py.contains (u "^^") (u "a(1)^^ b ") = true /\
  acts_of (process_line (u "a(1)^^ b ")) never_connected
  = [iii_event (u "a(1)^^ b ") (u "a", [u "1"]);
     iii_event (u "a(1)^^ b ") (u " b", [u ""])].
Proof.
  split; [reflexivity|].
  destruct (process_line_tokenizes never_connected (u "a(1)^^ b ") eq_refl)
    as (_ & Ha & _).
  rewrite Ha. reflexivity.
Defined.

Lemma pump_read_failure_witness :
  let st := connection_lost (link_up ∅ []) in
  outcome (read (100 * 100)) st = Raise WebSocketSerialThreaded.not_open /\
  is_connected st = true /\
  acts_of read_forever_body st
  = [Slept 100; Raised (u "connect_err") [VExn open_failed]; Slept 100] /\
  is_connected (after read_forever_body st) = false.
Proof.
  intros st.
  assert (Hr : outcome (read (100 * 100)) st = Raise WebSocketSerialThreaded.not_open)
    by reflexivity.
  assert (Hc : is_connected st = true) by reflexivity.
  split; [exact Hr|]. split; [exact Hc|].
  destruct (pump_read_failure st _ Hr Hc) as (_ & _ & _ & _ & Hf).
  apply Hf. discriminate.
Defined.

Lemma upload_missing_file_witness :
  files (link_up ∅ []) !! u "missing.lua" = None /\
  connected (link_up ∅ []) /\
  outcome (upload (u "missing.lua")) (link_up ∅ [])
  = Raise (FileNotFoundError (u "missing.lua")) /\
  outbound (after (upload (u "missing.lua")) (link_up ∅ [])) = [b8 "^^s" ++ CRLF] /\
  outcome (upload (u "missing.lua")) link_down = Raise WebSocketSerialThreaded.not_open.
Proof.
  assert (Hf : files (link_up ∅ []) !! u "missing.lua" = None) by reflexivity.
  assert (Hc : connected (link_up ∅ [])).
  { eexists. split; reflexivity. }
  split; [exact Hf|]. split; [exact Hc|].
  destruct (upload_missing_file (link_up ∅ []) (u "missing.lua") Hf) as [Hu _].
  destruct (Hu Hc) as (Ho & _ & Hq). split; [exact Ho|].
  split; [rewrite Hq; reflexivity|].
  destruct (upload_missing_file link_down (u "missing.lua") eq_refl) as (_ & _ & Hd).
  destruct (serial link_down) as [br|] eqn:Hs; [|discriminate Hs].
  assert (Hb : WebSocketSerialThreaded._is_open br = false).
  { injection Hs as <-. reflexivity. }
  exact (proj1 (Hd br eq_refl Hb)).
Defined.

Lemma write_sends_padded_utf8_witness :
  acts_of (write (u "hello")) (link_up ∅ []) = [Sent (b8 "hello")] /\
  acts_of (writeline (u "hello")) (link_up ∅ []) = [Sent (b8 "hello" ++ CRLF)] /\
  acts_of (write (replicate 64 97)) (link_up ∅ [])
  = [Sent (replicate 64 x61 ++ [x0a])].
Proof.
  destruct (serial (link_up ∅ [])) as [br|] eqn:Hs; [|discriminate Hs].
  assert (Ho : WebSocketSerialThreaded._is_open br = true).
  { injection Hs as <-. reflexivity. }
  destruct (write_sends_padded_utf8 (link_up ∅ []) br (u "hello") (b8 "hello")
              Hs Ho eq_refl) as ((_ & Hw & _) & (_ & Hl & _) & _).
  destruct (write_sends_padded_utf8 (link_up ∅ []) br (replicate 64 97)
              (replicate 64 x61) Hs Ho eq_refl) as ((_ & Hw64 & _) & _).
  rewrite Hw, Hl, Hw64. repeat split.
Defined.

Lemma transmit_without_open_bridge_witness :
  (exists br, serial link_down = Some br /\
              WebSocketSerialThreaded._is_open br = false) /\
  outcome (writeline (u "x")) link_down = Raise WebSocketSerialThreaded.not_open /\
  outcome (upload (u "f.lua")) link_down = Raise WebSocketSerialThreaded.not_open /\
  outcome (write (u "x")) never_connected = Ok tt.
Proof.
  destruct (serial link_down) as [br|] eqn:Hs; [|discriminate Hs].
  assert (Ho : WebSocketSerialThreaded._is_open br = false).
  { injection Hs as <-. reflexivity. }
  split; [exists br; split; [reflexivity|exact Ho]|].
  destruct (transmit_without_open_bridge link_down br Hs Ho) as (Hw & Hu & Hn).
  split; [exact (proj1 (proj2 (Hw (u "x") (b8 "x") eq_refl)))|].
  split; [exact (proj1 (proj1 (Hu (u "f.lua"))))|].
  exact (proj1 (proj1 (Hn never_connected (u "x") (b8 "x") eq_refl eq_refl))).
Defined.

(** ** Further properties of the bridge *)

Section Bridge.

Import WebSocketSerialThreaded.
Implicit Types (self : WebSocketSerialThreaded.t).

(** X1. [open] starts a thread once. On a bridge that is neither open nor
    holding a thread it waits 100 ms, then returns when the connection is
    established and raises SerialException when it is not; in both cases the
    thread is held afterwards, so that a further [open] does nothing at all:
    no wait, no change, and no error even when the first one failed. *)
Theorem open_only_once self established again :
  _is_open self = false -> _thread self = false ->
  let self' := after (open established) self in
  outcome (open established) self
  = (if established then Ok tt
     else Raise (SerialException
                   (u "Failed to open WebSocket connection to " ++ url self))) /\
  acts_of (open established) self = [Slept 100] /\
  _is_open self' = established /\ _thread self' = true /\
  _read_queue self' = _read_queue self /\ _write_queue self' = _write_queue self /\
  open again self' = (self', [], Ok tt).
Proof.
  intros Ho Ht. destruct self as [ur tm o rq wq th se]. cbn in Ho, Ht. subst o th.
  destruct established; cbn; repeat split.
Qed.

(** X2. [close] leaves the bridge not open and without thread, keeps both
    queues, and closing again changes nothing; after it [write] and [read]
    fail with 'Port is not open', and [open] starts afresh. *)
Theorem close_then self d size established :
  let self' := after close self in
  outcome close self = Ok tt /\ acts_of close self = [] /\
  _is_open self' = false /\ _thread self' = false /\
  _read_queue self' = _read_queue self /\ _write_queue self' = _write_queue self /\
  close self' = (self', [], Ok tt) /\
  write d self' = (self', [], Raise not_open) /\
  read size self' = (self', [], Raise not_open) /\
  _is_open (after (open established) self') = established.
Proof.
  destruct self as [ur tm o rq wq th se].
  destruct o, th, established; cbn; repeat split.
Qed.

Lemma write_bytes_open self d :
  _is_open self = true ->
  write (DBytes d) self
  = (set_write_queue (_write_queue self ++ [d]) self, [Sent d], Ok (length d)).
Proof.
  intros Ho. unfold write, bind, gets, modify, tell, ret. rewrite Ho. reflexivity.
Qed.

(** X3. On an open bridge, chunks written one after the other are put on
    the outbound queue behind what it holds, whole and in the order of the
    calls; each [write] returns the length of its chunk; the inbound queue
    is not touched. *)
Theorem writes_are_queued_in_order self chunks :
  _is_open self = true ->
  let m := for_ chunks (fun d => write (DBytes d) ;;; ret tt) in
  outcome m self = Ok tt /\
  acts_of m self = Sent <$> chunks /\
  _write_queue (after m self) = _write_queue self ++ chunks /\
  _read_queue (after m self) = _read_queue self /\
  _is_open (after m self) = true /\
  (forall d, outcome (write (DBytes d)) self = Ok (length d)).
Proof.
  intros Ho m. subst m. unfold outcome, acts_of, after.
  assert (H : forall self0, _is_open self0 = true ->
            for_ chunks (fun d => write (DBytes d) ;;; ret tt) self0
            = (set_write_queue (_write_queue self0 ++ chunks) self0,
               Sent <$> chunks, Ok tt)).
  { clear. induction chunks as [|d chunks IH]; intros self Ho.
    - cbn. rewrite app_nil_r. destruct self; reflexivity.
    - cbn [for_]. rewrite bind_run. rewrite bind_run.
      rewrite (write_bytes_open self d Ho). cbv beta iota. unfold ret at 1.
      rewrite IH by exact Ho. cbn. rewrite <- app_assoc. reflexivity. }
  rewrite (H self Ho). cbn [fst snd].
  split; [reflexivity|]. split; [reflexivity|]. split; [reflexivity|].
  split; [reflexivity|]. split; [exact Ho|].
  intros d. rewrite (write_bytes_open self d Ho). reflexivity.
Qed.

(** X4. On an open bridge whose waits end, [read] loses and reorders
    nothing. The waits end when the bridge has a timeout, or when the queue
    holds as many chunks as the reads ask for (without a timeout a wait on
    an empty queue has no end). Then what [read] returns followed by what
    stays on the inbound queue is what the queue held; it takes at most
    [size] chunks; two reads in a row return what one read of the sum of
    the sizes returns. On a bridge that is not open [read] raises at once
    and leaves the queue as it is. *)
Theorem read_keeps_order self n m :
  _is_open self = true ->
  is_Some (timeout self) \/ (n + m <= length (_read_queue self))%nat ->
  (exists d1 d2,
     outcome (read n) self = Ok d1 /\
     outcome (read m) (after (read n) self) = Ok d2 /\
     outcome (read (n + m)) self = Ok (d1 ++ d2) /\
     d1 ++ concat (_read_queue (after (read n) self)) = concat (_read_queue self)) /\
  length (_read_queue (after (read n) self)) = (length (_read_queue self) - n)%nat /\
  _read_queue (after (read 0) self) = _read_queue self /\
  (forall self0, _is_open self0 = false ->
                 read n self0 = (self0, [], Raise not_open)).
Proof.
  intros Ho _.
  assert (Hrun : forall k self0, _is_open self0 = true ->
            read k self0
            = (set_read_queue (drop k (_read_queue self0)) self0, [],
               Ok (concat (take k (_read_queue self0))))).
  { intros k self0 Ho0. unfold read, bind, gets. rewrite Ho0. cbn [negb].
    rewrite read_loop_chunks. reflexivity. }
  split; [|split; [|split]].
  - exists (concat (take n (_read_queue self))),
           (concat (take m (drop n (_read_queue self)))).
    unfold outcome, after. rewrite !(Hrun _ self Ho). cbn [fst snd].
    rewrite (Hrun m) by exact Ho. cbn [fst snd set_read_queue _read_queue].
    repeat split.
    + rewrite <- concat_app, take_take_drop. reflexivity.
    + rewrite <- concat_app, take_drop. reflexivity.
  - unfold after. rewrite (Hrun _ self Ho). cbn. apply length_drop.
  - unfold after. rewrite (Hrun _ self Ho). cbn. reflexivity.
  - intros self0 Ho0. unfold read, bind, gets, raise. rewrite Ho0. reflexivity.
Qed.

Lemma bytes_eqb_eq b1 b2 : bytes_eqb b1 b2 = true <-> b1 = b2.
Proof.
  revert b2. induction b1 as [|x b1 IH]; intros [|y b2]; cbn; try (split; congruence).
  rewrite andb_true_iff, IH. split.
  - intros [Hx ->]. apply Byte.byte_dec_bl in Hx. congruence.
  - intros H. injection H as -> ->. split; [|reflexivity].
    apply Byte.byte_dec_lb. reflexivity.
Qed.

Lemma readline_loop_plain size line q :
  size = (-1)%Z -> Forall (fun c => c <> [x0a]) q ->
  forall post,
    readline_loop size line (q ++ post)
    = match post with
      | [] => (line ++ concat q, [])
      | c :: post' =>
          readline_loop size (line ++ concat q) (c :: post')
      end.
Proof.
  intros -> HF. revert line. induction HF as [|c q Hc HF IH]; intros line post.
  - cbn. rewrite app_nil_r. destruct post; reflexivity.
  - cbn [app readline_loop].
    destruct (bytes_eqb c [x0a]) eqn:He; [apply bytes_eqb_eq in He; congruence|].
    cbn [negb andb Z.eqb]. rewrite IH. cbn [concat]. rewrite app_assoc.
    destruct post; reflexivity.
Qed.

(** X5. [readline] without a size ends a line only at a chunk that is
    b'\n' by itself. With the chunks [pre], none of them b'\n', on the
    inbound queue of an open bridge: followed by a chunk b'\n' and further
    chunks, [readline] returns the chunks of [pre] joined and the line feed,
    and leaves the further chunks, whatever the timeout; followed by
    nothing, on a bridge that has a timeout, it returns all of [pre] joined
    (also when chunks of [pre] end in a line feed) and leaves the queue
    empty. Without a timeout that second call waits without end. *)
Theorem readline_ends_at_newline_chunk self pre post :
  _is_open self = true -> Forall (fun c => c <> [x0a]) pre ->
  (readline (-1) (set_read_queue (pre ++ [x0a] :: post) self)
   = (set_read_queue post self, [], Ok (concat pre ++ [x0a]))) /\
  (is_Some (timeout self) ->
   readline (-1) (set_read_queue pre self)
   = (set_read_queue [] self, [], Ok (concat pre))).
Proof.
  intros Ho HF. unfold readline, bind, gets.
  destruct self as [ur tm o rq wq th se]. cbn in Ho. subst o. cbn.
  split.
  - rewrite (readline_loop_plain (-1) [] pre eq_refl HF). cbn. reflexivity.
  - intros _. rewrite <- (app_nil_r pre) at 1.
    rewrite (readline_loop_plain (-1) [] pre eq_refl HF). cbn. reflexivity.
Qed.


End Bridge.

(** ** Further properties of the link *)

Section Link.

Context {W : Type}.
Implicit Types (st : state W) (br : WebSocketSerialThreaded.t).

Lemma link_kept_refl st : link_kept st st.
Proof. repeat split. Qed.

Lemma link_kept_trans st1 st2 st3 :
  link_kept st1 st2 -> link_kept st2 st3 -> link_kept st1 st3.
Proof.
  unfold link_kept. intros (? & ? & ? & ? & ?) (? & ? & ? & ? & ?).
  repeat split; congruence.
Qed.

Lemma for_kept {A} (body : A -> Eff (state W) unit) xs :
  (forall x st, link_kept st (after (body x) st)) ->
  forall st, link_kept st (after (for_ xs body) st).
Proof.
  intros Hb. induction xs as [|x xs IH]; intros st; [apply link_kept_refl|].
  unfold after. cbn [for_]. rewrite bind_run.
  pose proof (Hb x st) as H1. unfold after in H1.
  destruct (body x st) as [[s1 a1] [[]|e]]; cbn [fst snd] in *; [|exact H1].
  pose proof (IH s1) as H2. unfold after in H2.
  destruct (for_ xs body s1) as [[s2 a2] r2]. cbn [fst snd] in *.
  exact (link_kept_trans _ _ _ H1 H2).
Qed.

Lemma raise_event_kept event args st :
  link_kept st (after (raise_event event args) st).
Proof. unfold after. rewrite raise_event_run. repeat split. Qed.

(** X7. [process_line] never fails, whatever the line and the subscribers.
    It writes nothing to the bridge and does not sleep: all it does is
    raise 'iii_event' or 'iii_output' events, and it leaves the bridge,
    [is_connected], the subscriber table and the files as they were. A line
    without the marker gives exactly one 'iii_output' event carrying the
    line as it is when the line is not empty, and nothing when it is. *)
Theorem process_line_only_raises st line :
  outcome (process_line line) st = Ok tt /\
  sent (acts_of (process_line line) st) = [] /\
  Forall (fun a => exists args,
            a = Raised (u "iii_event") args \/ a = Raised (u "iii_output") args)
         (acts_of (process_line line) st) /\
  link_kept st (after (process_line line) st) /\
  (Py.contains (u "^^") line = false ->
   acts_of (process_line line) st
   = if bool_decide (line = []) then [] else [Raised (u "iii_output") [VStr line]]).
Proof.
  assert (Hk : link_kept st (after (process_line line) st)).
  { unfold process_line. destruct (Py.contains (u "^^") line).
    - apply for_kept. intros cmd st0.
      destruct (Py.partition (u "(") (Py.rstrip cmd)) as [[t0 t1] t2].
      destruct (negb (Py.any [t0; t1; t2])); [apply link_kept_refl|].
      apply raise_event_kept.
    - destruct (Py.truthy line); [apply raise_event_kept|apply link_kept_refl]. }
  destruct (Py.contains (u "^^") line) eqn:Hm.
  - destruct (process_line_marked st line Hm) as [Ha Hr]. rewrite Ha.
    split; [exact Hr|]. split; [|split; [|split; [exact Hk|discriminate]]].
    + clear. induction (omap segment_event (Py.split (u "^^") line)) as [|ev evs IH];
        [reflexivity|exact IH].
    + apply Forall_fmap, Forall_true. intros ev. eexists. left. reflexivity.
  - destruct (process_line_unmarked st line Hm) as [Ha Hr]. rewrite Ha.
    split; [exact Hr|]. split; [|split; [|split; [exact Hk|]]].
    + destruct (Py.truthy line); reflexivity.
    + destruct (Py.truthy line); repeat constructor.
      eexists. right. reflexivity.
    + intros _. destruct line; reflexivity.
Qed.

(** X8. After [replace_handlers] an event reaches the subscribers of the
    new table and no other: what raising it does is told by the new table
    alone, whatever the old table held for the event. *)
Theorem replaced_table_only st table event args :
  let m := replace_handlers table ;;; raise_event event args in
  outcome m st = Ok tt /\
  acts_of m st = [Raised event args] /\
  event_handlers (after m st) = table /\
  user (after m st) = deliver args (default [] (table !! event)) (user st) /\
  log (after m st)
  = log st ++ failures event args (default [] (table !! event)) (user st).
Proof.
  intros m. subst m. unfold outcome, acts_of, after.
  rewrite bind_run. unfold replace_handlers at 1 2 3 4 5, modify. cbv beta iota.
  rewrite raise_event_run. cbn. repeat split.
Qed.

(** X9. [reconnect] never fails. It uses up one connection attempt and
    leaves the link holding a bridge, and
    right after it [is_connected] tells whether the bridge is open: both
    hold exactly when the attempt succeeded. A success raises 'connect'
    once; a failure raises 'connect_err' with the error of [open] when the
    link was connected before or the caller asked for the error, and is
    silent otherwise. The subscriber table and the files are kept. *)
Theorem reconnect_outcomes st err_event :
  let st' := after (reconnect err_event) st in
  outcome (reconnect err_event) st = Ok tt /\
  net st' = tail (net st) /\
  event_handlers st' = event_handlers st /\ files st' = files st /\
  is_Some (serial st') /\
  (is_connected st' = true <-> head (net st) = Some true) /\
  (connected st' <-> head (net st) = Some true) /\
  acts_of (reconnect err_event) st
  = Slept 100 ::
    (if bool_decide (head (net st) = Some true) then [Raised (u "connect") []]
     else if is_connected st || err_event
          then [Raised (u "connect_err") [VExn open_failed]] else []).
Proof.
  unfold outcome, acts_of, after, reconnect, try_except, connect, bind,
    modify, attempt, gets, on_serial, logger, connected.
  cbn -[raise_event].
  destruct (net st) as [|[|] rest] eqn:Hnet; cbn -[raise_event];
    try (destruct (is_connected st) eqn:Hc; cbn -[raise_event];
         [|destruct err_event; cbn -[raise_event]]);
    rewrite ?raise_event_run; cbn;
    (repeat split; try done;
     try (intros (br & Hs & Ho); injection Hs as <-; discriminate Ho);
     try (intros _; eexists; split; reflexivity);
     try (intros Hx; congruence)).
Qed.

Lemma writeline_closed_kept st br line b :
  serial st = Some br -> WebSocketSerialThreaded._is_open br = false ->
  Py.encode line = Some b ->
  outcome (writeline line) st = Raise WebSocketSerialThreaded.not_open /\
  acts_of (writeline line) st = [] /\
  outbound (after (writeline line) st) = outbound st.
Proof.
  intros Hs Ho He. unfold outcome, acts_of, after.
  rewrite (writeline_closed st br line b Hs Ho He).
  unfold outbound. cbn. rewrite Hs. repeat split.
Qed.

Lemma exit_run st :
  exit_ st = (if is_connected st then disconnect st else (st, [], Ok tt)).
Proof.
  unfold exit_. rewrite bind_run. unfold gets. cbv beta iota.
  destruct (is_connected st); [|reflexivity].
  destruct (disconnect st) as [[s2 a2] r]. reflexivity.
Qed.

(** X10. [disconnect] never fails and raises no event. In the state it
    leaves [is_connected] is false and the bridge, when one is held, is
    closed, its queues kept; a second [disconnect] changes nothing. A
    [writeline] run in that state, before anything connects the link again
    (as a turn of the pump does), fails with 'Port is not open' without
    putting anything on the outbound queue when the link holds a bridge;
    when the link holds none it returns without writing anything. [__exit__]
    is [disconnect] on a link whose [is_connected] is true, and does nothing
    on any other. *)
Theorem disconnect_closes st :
  let st' := after disconnect st in
  outcome disconnect st = Ok tt /\ acts_of disconnect st = [] /\
  is_connected st' = false /\ ~ connected st' /\
  outbound st' = outbound st /\ inbound st' = inbound st /\
  disconnect st' = (st', [], Ok tt) /\
  (forall line b, is_Some (serial st) -> Py.encode line = Some b ->
     outcome (writeline line) st' = Raise WebSocketSerialThreaded.not_open /\
     acts_of (writeline line) st' = [] /\
     outbound (after (writeline line) st') = outbound st) /\
  (forall line b, serial st = None -> Py.encode line = Some b ->
     writeline line st' = (st', [], Ok tt)) /\
  exit_ st = (if is_connected st then disconnect st else (st, [], Ok tt)).
Proof.
  destruct st as [[br|] c hs w fs nt lg].
  - destruct br as [ur tm o rq wq th se].
    assert (Hd : exists br',
               after disconnect (Deviceviii.mk (Some (WebSocketSerialThreaded.mk
                 ur tm o rq wq th se)) c hs w fs nt lg)
               = Deviceviii.mk (Some br') false hs w fs nt lg /\
               WebSocketSerialThreaded._is_open br' = false /\
               WebSocketSerialThreaded._write_queue br' = wq).
    { destruct o, th; eexists; (split; [reflexivity|split; reflexivity]). }
    destruct Hd as (br' & Hd & Ho' & Hq').
    cbv zeta. split; [destruct o, th; reflexivity|].
    split; [destruct o, th; reflexivity|].
    split; [destruct o, th; reflexivity|].
    split; [destruct o, th; intros (b0 & Hs & Ho); cbn in Hs; injection Hs as <-;
            discriminate Ho|].
    split; [destruct o, th; reflexivity|].
    split; [destruct o, th; reflexivity|].
    split; [destruct o, th; reflexivity|].
    split; [|split; [intros line b Hs; discriminate Hs|apply exit_run]].
    intros line b _ He. rewrite Hd.
    destruct (writeline_closed_kept (Deviceviii.mk (Some br') false hs w fs nt lg)
                br' line b eq_refl Ho' He) as (H1 & H2 & H3).
    split; [exact H1|]. split; [exact H2|]. rewrite H3. unfold outbound. cbn.
    exact Hq'.
  - cbv zeta. do 3 (split; [reflexivity|]).
    split; [intros (b0 & Hs & _); discriminate Hs|].
    do 3 (split; [reflexivity|]).
    split; [intros line b [x Hx]; discriminate Hx|].
    split; [|apply exit_run].
    intros line b _ He. apply (writeline_unbridged _ line b); [reflexivity|exact He].
Qed.

Lemma state_serial_eta st o : serial st = o -> set_serial o st = st.
Proof. intros <-. destruct st; reflexivity. Qed.

Lemma read_closed st br n :
  serial st = Some br -> WebSocketSerialThreaded._is_open br = false ->
  read n st = (st, [], Raise WebSocketSerialThreaded.not_open).
Proof.
  intros Hs Ho. destruct st as [sr c hs w fs nt lg]. cbn in Hs. subst sr.
  unfold read, readbin, bind, gets, on_serial, WebSocketSerialThreaded.read, raise.
  cbn. rewrite Ho. reflexivity.
Qed.

Lemma read_unbridged st n : serial st = None -> read n st = (st, [], Ok []).
Proof.
  intros Hs. destruct st as [sr c hs w fs nt lg]. cbn in Hs. subst sr. reflexivity.
Qed.

(** X11. [read] on a link whose bridge is open takes the first [count]
    chunks of the inbound queue, logs them when they are not empty, and
    returns their joined bytes decoded as UTF-8. When they do not decode it
    raises UnicodeDecodeError, and the chunks are gone from the queue all
    the same. It writes nothing and raises no event. *)
Theorem read_decodes_chunks st br count :
  serial st = Some br -> WebSocketSerialThreaded._is_open br = true ->
  let data := concat (take count (WebSocketSerialThreaded._read_queue br)) in
  outcome (read count) st
  = match Py.decode data with
    | Some s => Ok s
    | None => Raise UnicodeDecodeError
    end /\
  inbound (after (read count) st) = drop count (WebSocketSerialThreaded._read_queue br) /\
  outbound (after (read count) st) = outbound st /\
  acts_of (read count) st = [] /\
  log (after (read count) st)
  = log st ++ (if bool_decide (data = []) then [] else [DebugRx data]).
Proof.
  intros Hs Ho. destruct st as [sr c hs w fs nt lg]. cbn in Hs. subst sr.
  intros data. unfold outcome, acts_of, after, read, readbin, bind, gets,
    on_serial, WebSocketSerialThreaded.read, logger, modify, ret, lift_opt.
  cbn -[WebSocketSerialThreaded.read_loop Py.decode]. rewrite Ho.
  cbn -[WebSocketSerialThreaded.read_loop Py.decode]. rewrite read_loop_chunks.
  cbn -[Py.decode]. fold data.
  unfold inbound, outbound. clearbody data.
  destruct data as [|x data']; cbn -[Py.decode];
    (destruct (Py.decode _) as [s|] eqn:Hdec; cbn -[Py.decode];
     rewrite ?Hdec, ?app_nil_r; repeat split).
Qed.

Lemma read_forever_body_shape st :
  outcome read_forever_body st = Ok tt /\
  sent (acts_of read_forever_body st) = [] /\
  Forall (fun ev : str * list pyval => ev.1 = u "connect" \/ ev.1 = u "connect_err")
         (raised (acts_of read_forever_body st)).
Proof.
  unfold outcome, acts_of. rewrite read_forever_body_run.
  destruct (read_frame (100 * 100) st) as (Ha & _). unfold acts_of in Ha.
  destruct (read (100 * 100) st) as [[s1 a1] [r|exc]]; cbn [fst snd] in *; subst a1.
  - cbn. repeat split. constructor.
  - cbv zeta.
    set (s2 := if is_connected s1 then _ else s1).
    destruct (reconnect_outcomes s2 false) as (Ho & _ & _ & _ & _ & _ & _ & Hacts).
    unfold outcome, acts_of in Ho, Hacts.
    destruct (reconnect false s2) as [[s3 a3] r3]. cbn [fst snd] in *. subst a3 r3.
    cbn [fst snd app]. split; [reflexivity|].
    destruct (bool_decide (head (net s2) = Some true));
      [|destruct (is_connected s2 || false)]; cbn;
      (split; [reflexivity|]);
      try (constructor; [first [left; reflexivity|right; reflexivity]|]);
      constructor.
Qed.

(** X12. The pump never fails and never writes to the bridge: whatever
    the link, the subscribers and the number of turns, [read_forever]
    goes on, and the only events it raises are 'connect' and
    'connect_err'. *)
Theorem pump_never_fails n st :
  outcome (read_forever n) st = Ok tt /\
  sent (acts_of (read_forever n) st) = [] /\
  Forall (fun ev : str * list pyval => ev.1 = u "connect" \/ ev.1 = u "connect_err")
         (raised (acts_of (read_forever n) st)).
Proof.
  revert st. induction n as [|n IH]; intros st.
  - cbn. repeat split. constructor.
  - unfold outcome, acts_of. cbn [read_forever]. rewrite bind_run.
    destruct (read_forever_body_shape st) as (Ho & Hs & Hr).
    unfold outcome, acts_of in Ho, Hs, Hr.
    destruct (read_forever_body st) as [[s1 a1] r1]. cbn [fst snd] in *. subst r1.
    destruct (IH s1) as (Ho' & Hs' & Hr'). unfold outcome, acts_of in Ho', Hs', Hr'.
    destruct (read_forever n s1) as [[s2 a2] r2]. cbn [fst snd] in *.
    split; [exact Ho'|]. unfold sent, raised in *. rewrite !omap_app.
    split; [rewrite Hs, Hs'; reflexivity|]. apply Forall_app. split; assumption.
Qed.

(** X13. On a link that holds no bridge the pump does not try to connect:
    [read] returns the empty string without an error, so every turn only
    sleeps 1 ms and the link stays as it is. *)
Theorem pump_idle_without_bridge n st :
  serial st = None ->
  read_forever n st = (st, replicate n (Slept 1), Ok tt).
Proof.
  intros Hs. induction n as [|n IH]; [reflexivity|].
  cbn [read_forever replicate]. rewrite bind_run, read_forever_body_run.
  rewrite (read_unbridged st _ Hs). cbn [app]. rewrite IH. reflexivity.
Qed.

Lemma read_forever_body_closed st br :
  serial st = Some br -> WebSocketSerialThreaded._is_open br = false ->
  is_connected st = false ->
  read_forever_body st
  = (after (reconnect false) st, acts_of (reconnect false) st ++ [Slept 100], Ok tt).
Proof.
  intros Hs Ho Hc. rewrite read_forever_body_run, (read_closed st br _ Hs Ho).
  rewrite Hc. cbv zeta.
  destruct (reconnect_outcomes st false) as (Hr & _). unfold outcome in Hr.
  unfold after, acts_of.
  destruct (reconnect false st) as [[s3 a3] r3]. cbn [fst snd] in *. subst r3.
  reflexivity.
Qed.

(** X14. A link that holds a bridge which is not open, and is not marked
    connected, is brought up by the pump: while the attempts fail every
    turn sleeps 100 ms in [open] and 100 ms more and raises nothing; the
    turn whose attempt succeeds raises 'connect' once, and after it
    [is_connected] is true and the bridge is open. *)
Theorem pump_retries_until_up k rest st br :
  serial st = Some br -> WebSocketSerialThreaded._is_open br = false ->
  is_connected st = false ->
  net st = replicate k false ++ true :: rest ->
  outcome (read_forever (S k)) st = Ok tt /\
  acts_of (read_forever (S k)) st
  = concat (replicate k [Slept 100; Slept 100])
    ++ [Slept 100; Raised (u "connect") []; Slept 100] /\
  is_connected (after (read_forever (S k)) st) = true /\
  connected (after (read_forever (S k)) st) /\
  net (after (read_forever (S k)) st) = rest.
Proof.
  revert st br. induction k as [|k IH]; intros st br Hs Ho Hc Hn.
  - unfold outcome, acts_of, after. cbn [read_forever]. rewrite bind_run.
    rewrite (read_forever_body_closed st br Hs Ho Hc).
    destruct (reconnect_outcomes st false) as (_ & Hnet & _ & _ & _ & Hic & Hcn & Ha).
    rewrite Hn in *. cbn in Hnet, Hic, Hcn, Ha. rewrite Ha. cbn.
    split; [reflexivity|]. split; [reflexivity|].
    split; [apply Hic; reflexivity|]. split; [apply Hcn; reflexivity|exact Hnet].
  - destruct (reconnect_outcomes st false) as (_ & Hnet & _ & _ & [br' Hs'] & Hic & Hcn & Ha).
    rewrite Hn in Hnet, Hic, Hcn, Ha. cbn [replicate app head tail] in Hnet, Hic, Hcn, Ha.
    rewrite Hc in Ha. rewrite bool_decide_eq_false_2 in Ha by discriminate.
    cbn [orb] in Ha.
    set (st1 := after (reconnect false) st) in *.
    assert (Ho' : WebSocketSerialThreaded._is_open br' = false).
    { destruct (WebSocketSerialThreaded._is_open br') eqn:E; [|reflexivity].
      assert (Hx : connected st1) by (exists br'; split; assumption).
      apply Hcn in Hx. discriminate Hx. }
    assert (Hc' : is_connected st1 = false).
    { destruct (is_connected st1) eqn:E; [|reflexivity].
      destruct Hic as [Hic _]. specialize (Hic eq_refl). discriminate Hic. }
    destruct (IH st1 br' Hs' Ho' Hc' Hnet) as (H1 & H2 & H3 & H4 & H5).
    unfold outcome, acts_of, after in H1, H2, H3, H4, H5 |- *.
    change (@read_forever W (S (S k)))
      with (@read_forever_body W ;;; @read_forever W (S k)).
    rewrite bind_run, (read_forever_body_closed st br Hs Ho Hc).
    fold st1. rewrite Ha.
    destruct (read_forever (S k) st1) as [[s2 a2] r2]. cbn [fst snd] in *.
    subst a2 r2. cbn [replicate concat app]. repeat split; assumption.
Qed.

End Link.

(** ** Properties of the shell's command line *)

Section Repl.

Context {W : Type}.
Variable insert_at_end : str -> W -> W.
Variable print : str -> W -> W.
Variable app_exit : W -> W.

Implicit Types (self : DiiiRepl.t W).

Lemma gets_bind {S A B} (f : S -> A) (k : A -> Eff S B) s :
  bind (gets f) k s = k (f s) s.
Proof. unfold bind, gets. destruct (k (f s) s) as [[s2 a2] r]. reflexivity. Qed.

Lemma modify_bind {S B} (f : S -> S) (k : unit -> Eff S B) s :
  bind (modify f) k s = k tt (f s).
Proof. unfold bind, modify. destruct (k tt (f s)) as [[s2 a2] r]. reflexivity. Qed.

Lemma ret_bind {S A B} (a : A) (k : A -> Eff S B) s :
  bind (ret a) k s = k a s.
Proof. unfold bind, ret. destruct (k a s) as [[s2 a2] r]. reflexivity. Qed.

Lemma split_u_path c rest :
  Py.isspace c = false ->
  Py.split_maxsplit1 (u "u " ++ c :: rest) = [u "u"; c :: rest].
Proof.
  intros Hc. unfold Py.split_maxsplit1.
  change (u "u " ++ c :: rest) with (117 :: 32 :: c :: rest).
  change (Py.lstrip_by Py.isspace (117 :: 32 :: c :: rest))
    with (117 :: 32 :: c :: rest).
  assert (Hb : Py.break_space (117 :: 32 :: c :: rest) = ([117], 32 :: c :: rest)).
  { cbn [Py.break_space]. change (Py.isspace 117) with false.
    change (Py.isspace 32) with true. reflexivity. }
  cbv beta match. rewrite Hb.
  assert (Hl : Py.lstrip_by Py.isspace (32 :: c :: rest) = c :: rest).
  { cbn [Py.lstrip_by]. change (Py.isspace 32) with true. cbv iota.
    rewrite Hc. reflexivity. }
  rewrite Hl. reflexivity.
Qed.

(** X15. What the shell does not know it sends to the device as it was
    typed. A command line of two parts whose first word is not u, or of one
    word that is none of u, q, p and h, is passed whole to [writeline],
    leading and trailing whitespace included; the one word p sends '^^p'. *)
Theorem parse_forwards cmd c tl self :
  Py.split_maxsplit1 cmd = c :: tl -> c <> u "u" ->
  (tl <> [] -> DiiiRepl.parse insert_at_end print app_exit cmd self = DiiiRepl.on_iii (writeline cmd) self) /\
  (tl = [] -> c <> u "q" -> c <> u "p" -> c <> u "h" ->
   DiiiRepl.parse insert_at_end print app_exit cmd self = DiiiRepl.on_iii (writeline cmd) self) /\
  (tl = [] -> c = u "p" ->
   DiiiRepl.parse insert_at_end print app_exit cmd self = DiiiRepl.on_iii (writeline (u "^^p")) self).
Proof.
  intros Hp Hu. unfold DiiiRepl.parse. rewrite Hp. cbn [length Nat.eqb lookup].
  change ((c :: tl) !! 0%nat) with (Some c). cbn [default].
  rewrite (bool_decide_eq_false_2 _ Hu).
  split; [|split].
  - intros Htl. destruct tl; [congruence|]. reflexivity.
  - intros -> Hq Hpp Hh. cbn [length Nat.eqb].
    rewrite (bool_decide_eq_false_2 _ Hq), (bool_decide_eq_false_2 _ Hpp),
      (bool_decide_eq_false_2 _ Hh). reflexivity.
  - intros -> ->. reflexivity.
Qed.

(** X16. 'u <path>' with the path of a file that exists remembers the path
    and uploads the file; the path is all that follows the first run of
    whitespace, inner and trailing whitespace included. After it, 'u'
    alone uploads the remembered file again. *)
Theorem parse_upload_and_repeat c rest text self :
  Py.isspace c = false ->
  files (DiiiRepl.iii self) !! (c :: rest) = Some text ->
  DiiiRepl.parse insert_at_end print app_exit (u "u " ++ c :: rest) self
  = DiiiRepl.on_iii (upload (c :: rest)) (DiiiRepl.set_last_script (c :: rest) self) /\
  (forall self', DiiiRepl.last_script self' = c :: rest ->
     DiiiRepl.parse insert_at_end print app_exit (u "u") self' = DiiiRepl.on_iii (upload (c :: rest)) self').
Proof.
  intros Hc Hf. split.
  - unfold DiiiRepl.parse. rewrite (split_u_path c rest Hc).
    cbn [length Nat.eqb]. change ([u "u"; c :: rest] !! 0%nat) with (Some (u "u")).
    change ([u "u"; c :: rest] !! 1%nat) with (Some (c :: rest)). cbn [default].
    rewrite bool_decide_eq_true_2 by reflexivity.
    unfold DiiiRepl.isfile. rewrite gets_bind. cbv beta. unfold id.
    rewrite bool_decide_eq_true_2 by (rewrite Hf; eexists; reflexivity).
    rewrite modify_bind. reflexivity.
  - intros self' Hl. unfold DiiiRepl.parse.
    change (Py.split_maxsplit1 (u "u")) with [u "u"].
    cbn [length Nat.eqb]. change ([u "u"] !! 0%nat) with (Some (u "u")). cbn [default].
    rewrite bool_decide_eq_true_2 by reflexivity.
    rewrite gets_bind. cbv beta. rewrite Hl. reflexivity.
Qed.

(** X17. 'u <path>' with a path that names no file uploads nothing and
    remembers nothing: the command line itself is sent to the device as a
    line of text. *)
Theorem parse_upload_missing c rest self :
  Py.isspace c = false ->
  files (DiiiRepl.iii self) !! (c :: rest) = None ->
  DiiiRepl.parse insert_at_end print app_exit (u "u " ++ c :: rest) self
  = DiiiRepl.on_iii (writeline (u "u " ++ c :: rest)) self.
Proof.
  intros Hc Hf. unfold DiiiRepl.parse. rewrite (split_u_path c rest Hc).
  cbn [length Nat.eqb]. change ([u "u"; c :: rest] !! 0%nat) with (Some (u "u")).
  change ([u "u"; c :: rest] !! 1%nat) with (Some (c :: rest)). cbn [default].
  rewrite bool_decide_eq_true_2 by reflexivity.
  unfold DiiiRepl.isfile. rewrite gets_bind. cbv beta. unfold id.
  rewrite bool_decide_eq_false_2; [reflexivity|].
  rewrite Hf. intros [x Hx]. discriminate Hx.
Qed.

(** X18. The commands that stay in the shell never reach the link: a blank
    line does nothing at all; q prints 'bye.' and leaves the application;
    h shows the help text; u alone, when no script has been uploaded yet,
    shows how to use it. None of them writes to the bridge, raises an
    event or fails, and the link and the remembered script are kept. *)
Theorem parse_local cmd self :
  (Py.split_maxsplit1 cmd = [] -> DiiiRepl.parse insert_at_end print app_exit cmd self = (self, [], Ok tt)) /\
  (Py.split_maxsplit1 cmd = [u "q"] ->
   DiiiRepl.parse insert_at_end print app_exit cmd self
   = (DiiiRepl.set_iii
        (set_user (app_exit (print (u "bye.") (user (DiiiRepl.iii self))))
           (DiiiRepl.iii self)) self, [], Ok tt)) /\
  (Py.split_maxsplit1 cmd = [u "h"] ->
   DiiiRepl.parse insert_at_end print app_exit cmd self
   = (DiiiRepl.set_iii
        (set_user (insert_at_end DiiiRepl.diii_help (user (DiiiRepl.iii self)))
           (DiiiRepl.iii self)) self, [], Ok tt)) /\
  (Py.split_maxsplit1 cmd = [u "u"] -> DiiiRepl.last_script self = [] ->
   DiiiRepl.parse insert_at_end print app_exit cmd self
   = (DiiiRepl.set_iii
        (set_user (insert_at_end (u "  u <filename> to upload script")
                     (user (DiiiRepl.iii self)))
           (DiiiRepl.iii self)) self, [], Ok tt)).
Proof.
  unfold DiiiRepl.parse. repeat split.
  - intros ->. reflexivity.
  - intros ->. destruct self as [st ls]. reflexivity.
  - intros ->. destruct self as [st ls]. reflexivity.
  - intros -> Hl. destruct self as [st ls]. cbn in Hl. subst ls. reflexivity.
Qed.

End Repl.

(** ** UTF-8: what is written can be read back *)

Section Utf8.

Lemma to_N_byte_of_N x : x < 256 -> Byte.to_N (Py.byte_of_N x) = x.
Proof.
  intros Hx. unfold Py.byte_of_N.
  destruct (Byte.of_N x) as [y|] eqn:E.
  - cbn. apply Byte.to_of_N, E.
  - apply Byte.of_N_None_iff in E. lia.
Qed.

Lemma land_shifted_low a l k : l < 2 ^ k -> N.land (a * 2 ^ k) l = 0.
Proof.
  intros Hl. rewrite <- N.shiftl_mul_pow2. apply N.bits_inj. intros i.
  rewrite N.land_spec, N.bits_0.
  destruct (N.lt_ge_cases i k) as [Hi|Hi].
  - rewrite N.shiftl_spec_low by exact Hi. reflexivity.
  - destruct (N.eq_dec l 0) as [->|Hn]; [rewrite N.bits_0; apply andb_false_r|].
    rewrite (N.bits_above_log2 l i); [apply andb_false_r|].
    apply N.lt_le_trans with k; [|exact Hi].
    apply N.log2_lt_pow2; [lia|exact Hl].
Qed.

Lemma lor_add a l k : l < 2 ^ k -> N.lor (a * 2 ^ k) l = a * 2 ^ k + l.
Proof.
  intros Hl. rewrite N.add_nocarry_lxor, N.lxor_lor; auto using land_shifted_low.
Qed.

Lemma cont_byte l :
  l < 64 ->
  Byte.to_N (Py.byte_of_N (N.lor 0x80 l)) = 128 + l.
Proof.
  intros Hl. change 0x80 with (2 * 2 ^ 6). rewrite lor_add by exact Hl.
  apply to_N_byte_of_N. change (2 ^ 6) with 64. lia.
Qed.

Lemma land_c0 x : x < 256 -> N.land x 0xC0 = x / 64 * 64.
Proof.
  intros Hx.
  assert (H : x = N.lor (N.shiftl (N.shiftr x 6) 6) (N.land x (N.ones 6))).
  { rewrite <- N.ldiff_ones_r. symmetry. apply N.lor_ldiff_and. }
  rewrite N.shiftr_div_pow2 in H. change (2 ^ 6) with 64 in H.
  assert (Hq : x / 64 < 4) by divmod.
  assert (Hc : x / 64 = 0 \/ x / 64 = 1 \/ x / 64 = 2 \/ x / 64 = 3) by divmod.
  rewrite H at 1. rewrite N.land_lor_distr_l.
  rewrite <- N.land_assoc. change (N.land (N.ones 6) 192) with 0.
  rewrite N.land_0_r, N.lor_0_r.
  destruct Hc as [-> | [-> | [-> | ->]]]; reflexivity.
Qed.

Lemma lead_byte a k h :
  h < 2 ^ k -> a * 2 ^ k + h < 256 ->
  Byte.to_N (Py.byte_of_N (N.lor (a * 2 ^ k) h)) = a * 2 ^ k + h.
Proof. intros Hh Hb. rewrite lor_add by exact Hh. apply to_N_byte_of_N, Hb. Qed.

Lemma is_cont_byte l : l < 64 -> Py.is_cont (Py.byte_of_N (N.lor 0x80 l)) = true.
Proof.
  intros Hl. unfold Py.is_cont. rewrite cont_byte by exact Hl.
  rewrite land_c0 by lia. apply N.eqb_eq. divmod.
Qed.

Lemma low6_byte l : l < 64 -> Py.low6 (Py.byte_of_N (N.lor 0x80 l)) = l.
Proof.
  intros Hl. unfold Py.low6. rewrite cont_byte by exact Hl.
  change 0x3F with (N.ones 6). rewrite N.land_ones. change (2 ^ 6) with 64. divmod.
Qed.

Lemma land_3f_lt c : N.land c 0x3F < 64.
Proof.
  change 0x3F with (N.ones 6). rewrite N.land_ones. change (2 ^ 6) with 64. divmod.
Qed.

Lemma decode_encode_char c bc rest :
  Py.encode_char c = Some bc ->
  Py.decode (bc ++ rest) = cons c <$> Py.decode rest.
Proof.
  unfold Py.encode_char.
  destruct (N.ltb_spec c 0x80) as [H1|H1].
  { intros [= <-]. cbn [app Py.decode].
    rewrite to_N_byte_of_N by lia.
    destruct (N.ltb_spec c 0x80); [reflexivity|lia]. }
  destruct (N.ltb_spec c 0x800) as [H2|H2].
  { intros [= <-]. cbn [app Py.decode].
    rewrite is_cont_byte, low6_byte by apply land_3f_lt.
    assert (Hh : N.shiftr c 6 = c / 64) by (rewrite N.shiftr_div_pow2; reflexivity).
    assert (Hl : N.land c 0x3F = c mod 64)
      by (change 0x3F with (N.ones 6); rewrite N.land_ones; reflexivity).
    assert (H0 : Byte.to_N (Py.byte_of_N (N.lor 0xC0 (N.shiftr c 6))) = 192 + c / 64).
    { rewrite Hh. change 0xC0 with (6 * 2 ^ 5). rewrite lead_byte.
      - reflexivity.
      - change (2 ^ 5) with 32. divmod.
      - change (2 ^ 5) with 32. divmod. }
    rewrite H0, Hl.
    assert (Hv : N.lor (N.shiftl (N.land (192 + c / 64) 0x1F) 6) (c mod 64) = c).
    { change 0x1F with (N.ones 5). rewrite N.land_ones, N.shiftl_mul_pow2.
      rewrite lor_add by (change (2 ^ 6) with 64; divmod).
      change (2 ^ 6) with 64. change (2 ^ 5) with 32. divmod. }
    rewrite Hv.
    destruct (N.ltb_spec (192 + c / 64) 0x80); [divmod|].
    destruct (N.leb_spec 0xC2 (192 + c / 64)); [|divmod].
    destruct (N.leb_spec (192 + c / 64) 0xDF); [|divmod].
    reflexivity. }
  destruct (N.ltb_spec c 0x10000) as [H3|H3].
  { destruct (Py.is_surrogate c) eqn:Hsur; [discriminate|].
    intros [= <-]. cbn [app Py.decode].
    rewrite !is_cont_byte, !low6_byte by apply land_3f_lt.
    assert (Hm : N.land (N.shiftr c 6) 0x3F = c / 64 mod 64)
      by (change 0x3F with (N.ones 6); rewrite N.land_ones, N.shiftr_div_pow2; reflexivity).
    assert (Hl : N.land c 0x3F = c mod 64)
      by (change 0x3F with (N.ones 6); rewrite N.land_ones; reflexivity).
    assert (H0 : Byte.to_N (Py.byte_of_N (N.lor 0xE0 (N.shiftr c 12))) = 224 + c / 4096).
    { rewrite N.shiftr_div_pow2. change (2 ^ 12) with 4096.
      change 0xE0 with (14 * 2 ^ 4). rewrite lead_byte.
      - reflexivity.
      - change (2 ^ 4) with 16. divmod.
      - change (2 ^ 4) with 16. divmod. }
    rewrite H0, Hm, Hl.
    assert (Hv : N.lor (N.shiftl (N.land (224 + c / 4096) 0x0F) 12)
                   (N.lor (N.shiftl (c / 64 mod 64) 6) (c mod 64)) = c).
    { change 0x0F with (N.ones 4). rewrite N.land_ones, !N.shiftl_mul_pow2.
      rewrite (lor_add (c / 64 mod 64)) by (change (2 ^ 6) with 64; divmod).
      rewrite lor_add by (change (2 ^ 6) with 64; change (2 ^ 12) with 4096; divmod).
      change (2 ^ 6) with 64. change (2 ^ 12) with 4096. change (2 ^ 4) with 16. divmod. }
    rewrite Hv, Hsur.
    destruct (N.ltb_spec (224 + c / 4096) 0x80); [divmod|].
    destruct (N.leb_spec 0xC2 (224 + c / 4096)); [|divmod].
    destruct (N.leb_spec (224 + c / 4096) 0xDF); [divmod|].
    destruct (N.leb_spec 0xE0 (224 + c / 4096)); [|divmod].
    destruct (N.leb_spec (224 + c / 4096) 0xEF); [|divmod].
    destruct (N.leb_spec 0x800 c); [|lia].
    reflexivity. }
  destruct (N.ltb_spec c 0x110000) as [H4|H4]; [|discriminate].
  intros [= <-]. cbn [app Py.decode].
  rewrite !is_cont_byte, !low6_byte by apply land_3f_lt.
  assert (Hm1 : N.land (N.shiftr c 12) 0x3F = c / 4096 mod 64)
    by (change 0x3F with (N.ones 6); rewrite N.land_ones, N.shiftr_div_pow2; reflexivity).
  assert (Hm2 : N.land (N.shiftr c 6) 0x3F = c / 64 mod 64)
    by (change 0x3F with (N.ones 6); rewrite N.land_ones, N.shiftr_div_pow2; reflexivity).
  assert (Hl : N.land c 0x3F = c mod 64)
    by (change 0x3F with (N.ones 6); rewrite N.land_ones; reflexivity).
  assert (H0 : Byte.to_N (Py.byte_of_N (N.lor 0xF0 (N.shiftr c 18))) = 240 + c / 262144).
  { rewrite N.shiftr_div_pow2. change (2 ^ 18) with 262144.
    change 0xF0 with (30 * 2 ^ 3). rewrite lead_byte.
    - reflexivity.
    - change (2 ^ 3) with 8. divmod.
    - change (2 ^ 3) with 8. divmod. }
  rewrite H0, Hm1, Hm2, Hl.
  assert (Hv : N.lor (N.shiftl (N.land (240 + c / 262144) 0x07) 18)
                 (N.lor (N.shiftl (c / 4096 mod 64) 12)
                    (N.lor (N.shiftl (c / 64 mod 64) 6) (c mod 64))) = c).
  { change 0x07 with (N.ones 3). rewrite N.land_ones, !N.shiftl_mul_pow2.
    rewrite (lor_add (c / 64 mod 64)) by (change (2 ^ 6) with 64; divmod).
    rewrite (lor_add (c / 4096 mod 64))
      by (change (2 ^ 6) with 64; change (2 ^ 12) with 4096; divmod).
    rewrite lor_add
      by (change (2 ^ 6) with 64; change (2 ^ 12) with 4096;
          change (2 ^ 18) with 262144; divmod).
    change (2 ^ 6) with 64. change (2 ^ 12) with 4096. change (2 ^ 18) with 262144.
    change (2 ^ 3) with 8. divmod. }
  rewrite Hv.
  destruct (N.ltb_spec (240 + c / 262144) 0x80); [divmod|].
  destruct (N.leb_spec 0xC2 (240 + c / 262144)); [|divmod].
  destruct (N.leb_spec (240 + c / 262144) 0xDF); [divmod|].
  destruct (N.leb_spec 0xE0 (240 + c / 262144)); [|divmod].
  destruct (N.leb_spec (240 + c / 262144) 0xEF); [divmod|].
  destruct (N.leb_spec 0xF0 (240 + c / 262144)); [|divmod].
  destruct (N.leb_spec (240 + c / 262144) 0xF4); [|divmod].
  destruct (N.leb_spec 0x10000 c); [|lia].
  destruct (N.ltb_spec c 0x110000); [|lia].
  reflexivity.
Qed.

(** Decoding what [encode] gave, followed by more bytes, gives the text
    back, followed by the decoding of the rest. *)
Lemma decode_encode_app s b rest :
  Py.encode s = Some b ->
  Py.decode (b ++ rest) = (fun t => s ++ t) <$> Py.decode rest.
Proof.
  revert b. induction s as [|c s IH]; intros b He; cbn [Py.encode] in He.
  - injection He as <-. cbn [app]. destruct (Py.decode rest); reflexivity.
  - destruct (Py.encode_char c) as [bc|] eqn:Hc; [|discriminate].
    destruct (Py.encode s) as [bs|]; [|discriminate].
    injection He as <-. rewrite <- app_assoc.
    rewrite (decode_encode_char c bc _ Hc), (IH bs eq_refl).
    destruct (Py.decode rest); reflexivity.
Qed.

Lemma decode_encode s b : Py.encode s = Some b -> Py.decode b = Some s.
Proof.
  intros He. rewrite <- (app_nil_r b), (decode_encode_app s b [] He).
  cbn. rewrite app_nil_r. reflexivity.
Qed.

Context {W : Type}.

(** X19. What [write] sends, once the peer has sent it back, is what
    [read] returns: on a link whose bridge is open and has nothing waiting,
    the text [s] written, echoed as one chunk and read comes back as [s],
    followed by a line feed exactly when its UTF-8 form has a length that is
    a multiple of 64; the read never fails to decode, and leaves the
    inbound queue empty. *)
Theorem write_echo_read (st : state W) s b n :
  connected st -> inbound st = [] -> Py.encode s = Some b -> (0 < n)%nat ->
  let st1 := echoed (acts_of (write s) st) (after (write s) st) in
  outcome (read n) st1
  = Ok (s ++ (if (length b mod 64 =? 0)%nat then [LF] else [])) /\
  inbound (after (read n) st1) = [].
Proof.
  intros (br & Hs & Ho) Hq He Hn st1. subst st1. unfold acts_of, after.
  rewrite (write_open st br s b Hs Ho He). cbn [fst snd].
  unfold inbound in Hq. rewrite Hs in Hq.
  set (chunk := b ++ padding b).
  set (br1 := WebSocketSerialThreaded.set_read_queue [chunk]
                (WebSocketSerialThreaded.set_write_queue
                   (WebSocketSerialThreaded._write_queue br ++ [chunk]) br)).
  assert (Hs1 : serial (echoed [Sent chunk] (enqueued chunk br st)) = Some br1).
  { unfold echoed, receive, on_bridge, enqueued, br1. cbn. rewrite Hq. reflexivity. }
  assert (Ho1 : WebSocketSerialThreaded._is_open br1 = true) by exact Ho.
  destruct (read_decodes_chunks _ br1 n Hs1 Ho1) as (Hr & Hi & _).
  assert (Ht : take n (WebSocketSerialThreaded._read_queue br1) = [chunk]).
  { destruct n; [lia|]. cbn. rewrite take_nil. reflexivity. }
  assert (Hd : drop n (WebSocketSerialThreaded._read_queue br1) = []).
  { destruct n; [lia|]. cbn. apply drop_nil. }
  cbv zeta in Hr. rewrite Ht in Hr. rewrite Hd in Hi.
  split; [|exact Hi]. unfold outcome. unfold outcome in Hr. rewrite Hr.
  cbn [concat]. rewrite app_nil_r. unfold chunk, padding.
  rewrite (decode_encode_app s b _ He).
  destruct (length b mod 64 =? 0)%nat; reflexivity.
Qed.

End Utf8.

(** ** The further theorems at work *)

Lemma open_only_once_witness :
  outcome (WebSocketSerialThreaded.open false) new_bridge
  = Raise (SerialException
             (u "Failed to open WebSocket connection to ws://localhost:8765")) /\
  outcome (WebSocketSerialThreaded.open true)
    (after (WebSocketSerialThreaded.open false) new_bridge) = Ok tt /\
  WebSocketSerialThreaded._is_open
    (after (WebSocketSerialThreaded.open true)
       (after (WebSocketSerialThreaded.open false) new_bridge)) = false.
Proof.
  destruct (open_only_once new_bridge false true eq_refl eq_refl)
    as (H1 & _ & H3 & _ & _ & _ & H7).
  split; [exact H1|]. split; [exact (f_equal snd H7)|].
  exact (eq_trans (f_equal (fun x => WebSocketSerialThreaded._is_open x.1.1) H7) H3).
Defined.

Lemma writes_are_queued_in_order_witness :
  WebSocketSerialThreaded._write_queue
    (after (for_ [b8 "a"; b8 "bc"]
              (fun d => WebSocketSerialThreaded.write (WebSocketSerialThreaded.DBytes d)
                        ;;; ret tt)) open_bridge)
  = [b8 "a"; b8 "bc"].
Proof.
  destruct (writes_are_queued_in_order open_bridge [b8 "a"; b8 "bc"] eq_refl)
    as (_ & _ & H & _).
  exact H.
Defined.

Lemma read_keeps_order_witness :
  exists d1 d2,
    outcome (WebSocketSerialThreaded.read 1)
      (WebSocketSerialThreaded.set_read_queue [b8 "ab"; b8 "c"; b8 "d"] open_bridge)
    = Ok d1 /\
    outcome (WebSocketSerialThreaded.read 2)
      (after (WebSocketSerialThreaded.read 1)
         (WebSocketSerialThreaded.set_read_queue [b8 "ab"; b8 "c"; b8 "d"] open_bridge))
    = Ok d2 /\
    d1 ++ d2 = b8 "abcd".
Proof.
  destruct (read_keeps_order
              (WebSocketSerialThreaded.set_read_queue [b8 "ab"; b8 "c"; b8 "d"] open_bridge)
              1 2 eq_refl (or_introl (ex_intro _ 500 eq_refl)))
    as ((d1 & d2 & H1 & H2 & H3 & _) & _).
  exists d1, d2. split; [exact H1|]. split; [exact H2|].
  cbn in H3. injection H3 as <-. reflexivity.
Defined.

Lemma readline_ends_at_newline_chunk_witness :
  outcome (WebSocketSerialThreaded.readline (-1))
    (WebSocketSerialThreaded.set_read_queue
       [b8 "hello" ++ [x0a]; b8 "world"; [x0a]; b8 "next"] open_bridge)
  = Ok (b8 "hello" ++ [x0a] ++ b8 "world" ++ [x0a]).
Proof.
  assert (HF : Forall (fun c : bytes => c <> [x0a]) [b8 "hello" ++ [x0a]; b8 "world"]).
  { repeat constructor; discriminate. }
  destruct (readline_ends_at_newline_chunk open_bridge
              [b8 "hello" ++ [x0a]; b8 "world"] [b8 "next"] eq_refl HF) as [H _].
  unfold outcome. cbn [app] in H. rewrite H. reflexivity.
Defined.


Lemma read_decodes_chunks_witness :
  outcome (read 5) (receive [[xc3]] (link_up ∅ [])) = Raise UnicodeDecodeError /\
  inbound (after (read 5) (receive [[xc3]] (link_up ∅ []))) = [].
Proof.
  destruct (serial (receive [[xc3]] (link_up ∅ []))) as [br|] eqn:Hs; [|discriminate Hs].
  assert (Ho : WebSocketSerialThreaded._is_open br = true).
  { injection Hs as <-. reflexivity. }
  destruct (read_decodes_chunks _ br 5 Hs Ho) as (H1 & H2 & _).
  injection Hs as <-. split; [exact H1|exact H2].
Defined.

Lemma pump_idle_without_bridge_witness :
  read_forever 3 never_connected
  = (never_connected, [Slept 1; Slept 1; Slept 1], Ok tt).
Proof. exact (pump_idle_without_bridge 3 never_connected eq_refl). Defined.

Lemma pump_retries_until_up_witness :
  let st := after (reconnect true) (init tt ∅ [false; false; true]) in
  raised (acts_of (read_forever 2) st) = [(u "connect", [])] /\
  is_connected (after (read_forever 2) st) = true.
Proof.
  intros st.
  destruct (serial st) as [br|] eqn:Hs; [|discriminate Hs].
  assert (Ho : WebSocketSerialThreaded._is_open br = false).
  { injection Hs as <-. reflexivity. }
  destruct (pump_retries_until_up 1 [] st br Hs Ho eq_refl eq_refl)
    as (_ & Ha & Hc & _).
  rewrite Ha. split; [reflexivity|exact Hc].
Defined.

Lemma parse_forwards_witness :
  DiiiRepl.parse shown shown left_app (u " print(1) ") (shell ∅)
  = DiiiRepl.on_iii (writeline (u " print(1) ")) (shell ∅).
Proof.
  destruct (parse_forwards shown shown left_app (u " print(1) ") (u "print(1)") []
              (shell ∅) eq_refl) as (_ & H & _).
  - discriminate.
  - apply H; [reflexivity|discriminate..].
Defined.

Lemma parse_upload_and_repeat_witness :
  DiiiRepl.last_script
    (after (DiiiRepl.parse shown shown left_app (u "u f.lua")) (shell two_lines))
  = u "f.lua" /\
  sent (acts_of (DiiiRepl.parse shown shown left_app (u "u f.lua")) (shell two_lines))
  = [b8 "^^s" ++ CRLF; b8 "ab" ++ CRLF; b8 "cd" ++ CRLF; b8 "^^w" ++ CRLF;
     b8 "^^z" ++ CRLF] /\
  sent (acts_of (DiiiRepl.parse shown shown left_app (u "u"))
          (DiiiRepl.set_last_script (u "f.lua") (shell two_lines)))
  = [b8 "^^s" ++ CRLF; b8 "ab" ++ CRLF; b8 "cd" ++ CRLF; b8 "^^w" ++ CRLF;
     b8 "^^z" ++ CRLF].
Proof.
  destruct (parse_upload_and_repeat shown shown left_app 102 (u ".lua")
              (u "ab  " ++ [LF] ++ u "cd") (shell two_lines) eq_refl eq_refl)
    as [H1 H2].
  unfold after, acts_of.
  change (u "u f.lua") with (u "u " ++ 102 :: u ".lua"). rewrite H1.
  rewrite (H2 (DiiiRepl.set_last_script (u "f.lua") (shell two_lines)) eq_refl).
  vm_compute. repeat split.
Defined.

Lemma parse_upload_missing_witness :
  sent (acts_of (DiiiRepl.parse shown shown left_app (u "u nofile")) (shell two_lines))
  = [b8 "u nofile" ++ CRLF] /\
  DiiiRepl.last_script
    (after (DiiiRepl.parse shown shown left_app (u "u nofile")) (shell two_lines)) = [].
Proof.
  pose proof (parse_upload_missing shown shown left_app 110 (u "ofile")
                (shell two_lines) eq_refl eq_refl) as H.
  unfold after, acts_of.
  change (u "u nofile") with (u "u " ++ 110 :: u "ofile"). rewrite H.
  vm_compute. split; reflexivity.
Defined.

Lemma write_echo_read_witness :
  Py.encode [104; 233; 108] = Some [x68; xc3; xa9; x6c] /\
  outcome (read 1)
    (echoed (acts_of (write [104; 233; 108]) (link_up ∅ []))
       (after (write [104; 233; 108]) (link_up ∅ [])))
  = Ok [104; 233; 108].
Proof.
  split; [reflexivity|].
  assert (Hc : connected (link_up ∅ [])).
  { eexists. split; reflexivity. }
  destruct (write_echo_read (link_up ∅ []) [104; 233; 108] [x68; xc3; xa9; x6c] 1
              Hc eq_refl eq_refl ltac:(lia)) as [H _].
  rewrite H. reflexivity.
Defined.
